(** * draw_scene.cc: transform math, the entity and the render loop

    A shallow embedding of [src/draw_scene.cc].  The program's scalars are
    [GLfloat]; they are read here as real numbers and the arithmetic on
    them is exact.  The constant [kHalfPi] keeps the value its cast to
    [GLfloat] gives it, which decides [ComputeCotangent] near its poles.
    Matrices are the fixed-size Eigen types [Matrix4f], [Matrix3f],
    [Vector4f] and [Vector3f], written here as records of rows and
    addressed as [M(row, col)] like Eigen's [operator()]. *)

From Stdlib Require Import Reals Lra Psatz ZArith List String.
From Stdlib Require Import Machin.
Import ListNotations.
Open Scope R_scope.

(** ** Scalars and constants *)

(** [GLfloat] as the reals, [GLuint] and [int] as integers. *)
Abbreviation GLfloat := R.
Abbreviation GLuint := Z.

(** [M_PI] of <cmath>. *)
Definition M_PI : R := PI.

(** Window dimensions ([constexpr int]). *)
Definition kWindowWidth : Z := 640.
Definition kWindowHeight : Z := 480.

(** ** Fixed-size vectors and matrices *)

Record Vector3f := Vec3 { x3 : R; y3 : R; z3 : R }.
Record Vector4f := Vec4 { x4 : R; y4 : R; z4 : R; w4 : R }.
Record Matrix3f := Mat3 { m3r0 : Vector3f; m3r1 : Vector3f; m3r2 : Vector3f }.
Record Matrix4f :=
  Mat4 { m4r0 : Vector4f; m4r1 : Vector4f; m4r2 : Vector4f; m4r3 : Vector4f }.

(** The operations of the Eigen library that the program calls, with the
    meaning the library gives them. *)
Module Eigen.

(** Coefficient reads; an index out of range fails an assertion in Eigen
    and is read as 0 here (no call site of the program is out of range). *)
Definition vcoeff3 (v : Vector3f) (i : nat) : R :=
  match i with
  | 0%nat => x3 v | 1%nat => y3 v | 2%nat => z3 v | _ => 0
  end.

Definition vcoeff4 (v : Vector4f) (i : nat) : R :=
  match i with
  | 0%nat => x4 v | 1%nat => y4 v | 2%nat => z4 v | 3%nat => w4 v | _ => 0
  end.

Definition row3 (M : Matrix3f) (i : nat) : Vector3f :=
  match i with
  | 0%nat => m3r0 M | 1%nat => m3r1 M | 2%nat => m3r2 M | _ => Vec3 0 0 0
  end.

Definition row4 (M : Matrix4f) (i : nat) : Vector4f :=
  match i with
  | 0%nat => m4r0 M | 1%nat => m4r1 M | 2%nat => m4r2 M | 3%nat => m4r3 M
  | _ => Vec4 0 0 0 0
  end.

Definition coeff3 (M : Matrix3f) (i j : nat) : R := vcoeff3 (row3 M i) j.
Definition coeff4 (M : Matrix4f) (i j : nat) : R := vcoeff4 (row4 M i) j.

Definition col4 (M : Matrix4f) (j : nat) : Vector4f :=
  Vec4 (coeff4 M 0 j) (coeff4 M 1 j) (coeff4 M 2 j) (coeff4 M 3 j).

(** Coefficient writes, [v(i) = a] and [M(i, j) = a]; out of range leaves
    the object as it is. *)
Definition vset3 (v : Vector3f) (i : nat) (a : R) : Vector3f :=
  match i with
  | 0%nat => Vec3 a (y3 v) (z3 v)
  | 1%nat => Vec3 (x3 v) a (z3 v)
  | 2%nat => Vec3 (x3 v) (y3 v) a
  | _ => v
  end.

Definition vset4 (v : Vector4f) (i : nat) (a : R) : Vector4f :=
  match i with
  | 0%nat => Vec4 a (y4 v) (z4 v) (w4 v)
  | 1%nat => Vec4 (x4 v) a (z4 v) (w4 v)
  | 2%nat => Vec4 (x4 v) (y4 v) a (w4 v)
  | 3%nat => Vec4 (x4 v) (y4 v) (z4 v) a
  | _ => v
  end.

Definition set_row3 (M : Matrix3f) (i : nat) (r : Vector3f) : Matrix3f :=
  match i with
  | 0%nat => Mat3 r (m3r1 M) (m3r2 M)
  | 1%nat => Mat3 (m3r0 M) r (m3r2 M)
  | 2%nat => Mat3 (m3r0 M) (m3r1 M) r
  | _ => M
  end.

Definition set_row4 (M : Matrix4f) (i : nat) (r : Vector4f) : Matrix4f :=
  match i with
  | 0%nat => Mat4 r (m4r1 M) (m4r2 M) (m4r3 M)
  | 1%nat => Mat4 (m4r0 M) r (m4r2 M) (m4r3 M)
  | 2%nat => Mat4 (m4r0 M) (m4r1 M) r (m4r3 M)
  | 3%nat => Mat4 (m4r0 M) (m4r1 M) (m4r2 M) r
  | _ => M
  end.

Definition coeffRef3 (M : Matrix3f) (i j : nat) (a : R) : Matrix3f :=
  set_row3 M i (vset3 (row3 M i) j a).

Definition coeffRef4 (M : Matrix4f) (i j : nat) (a : R) : Matrix4f :=
  set_row4 M i (vset4 (row4 M i) j a).

(** [Matrix4f::Identity()] and [Matrix3f::Identity()]. *)
Definition Identity4 : Matrix4f :=
  Mat4 (Vec4 1 0 0 0) (Vec4 0 1 0 0) (Vec4 0 0 1 0) (Vec4 0 0 0 1).

Definition Identity3 : Matrix3f :=
  Mat3 (Vec3 1 0 0) (Vec3 0 1 0) (Vec3 0 0 1).

(** [v.homogeneous()]: the vector with a trailing 1. *)
Definition homogeneous (v : Vector3f) : Vector4f :=
  Vec4 (x3 v) (y3 v) (z3 v) 1.

(** [M.col(j) = c]. *)
Definition set_col4 (M : Matrix4f) (j : nat) (c : Vector4f) : Matrix4f :=
  Mat4 (vset4 (m4r0 M) j (x4 c)) (vset4 (m4r1 M) j (y4 c))
       (vset4 (m4r2 M) j (z4 c)) (vset4 (m4r3 M) j (w4 c)).

(** [M.block(0, 0, 3, 3) = B] and the read [M.block(0, 0, 3, 3)]. *)
Definition set_block33 (M : Matrix4f) (B : Matrix3f) : Matrix4f :=
  Mat4 (Vec4 (x3 (m3r0 B)) (y3 (m3r0 B)) (z3 (m3r0 B)) (w4 (m4r0 M)))
       (Vec4 (x3 (m3r1 B)) (y3 (m3r1 B)) (z3 (m3r1 B)) (w4 (m4r1 M)))
       (Vec4 (x3 (m3r2 B)) (y3 (m3r2 B)) (z3 (m3r2 B)) (w4 (m4r2 M)))
       (m4r3 M).

Definition block33 (M : Matrix4f) : Matrix3f :=
  Mat3 (Vec3 (x4 (m4r0 M)) (y4 (m4r0 M)) (z4 (m4r0 M)))
       (Vec3 (x4 (m4r1 M)) (y4 (m4r1 M)) (z4 (m4r1 M)))
       (Vec3 (x4 (m4r2 M)) (y4 (m4r2 M)) (z4 (m4r2 M))).

(** Vector arithmetic. *)
Definition scale3 (s : R) (v : Vector3f) : Vector3f :=
  Vec3 (s * x3 v) (s * y3 v) (s * z3 v).

Definition div3 (v : Vector3f) (s : R) : Vector3f :=
  Vec3 (x3 v / s) (y3 v / s) (z3 v / s).

Definition add3 (u v : Vector3f) : Vector3f :=
  Vec3 (x3 u + x3 v) (y3 u + y3 v) (z3 u + z3 v).

Definition cwiseProduct (u v : Vector3f) : Vector3f :=
  Vec3 (x3 u * x3 v) (y3 u * y3 v) (z3 u * z3 v).

Definition dot3 (u v : Vector3f) : R :=
  x3 u * x3 v + y3 u * y3 v + z3 u * z3 v.

Definition dot4 (u v : Vector4f) : R :=
  x4 u * x4 v + y4 u * y4 v + z4 u * z4 v + w4 u * w4 v.

(** [u.cross(v)]. *)
Definition cross (u v : Vector3f) : Vector3f :=
  Vec3 (y3 u * z3 v - z3 u * y3 v)
       (z3 u * x3 v - x3 u * z3 v)
       (x3 u * y3 v - y3 u * x3 v).

Definition squaredNorm (v : Vector3f) : R := dot3 v v.

Definition norm (v : Vector3f) : R := sqrt (squaredNorm v).

(** [v.normalized()]: [v / sqrt(v.squaredNorm())] when the squared norm is
    positive, [v] itself otherwise. *)
Definition normalized (v : Vector3f) : Vector3f :=
  if Rlt_dec 0 (squaredNorm v) then div3 v (sqrt (squaredNorm v)) else v.

(** Products [A * v] and [A * B]. *)
Definition mulv3 (A : Matrix3f) (v : Vector3f) : Vector3f :=
  Vec3 (dot3 (m3r0 A) v) (dot3 (m3r1 A) v) (dot3 (m3r2 A) v).

Definition mulv4 (A : Matrix4f) (v : Vector4f) : Vector4f :=
  Vec4 (dot4 (m4r0 A) v) (dot4 (m4r1 A) v) (dot4 (m4r2 A) v)
       (dot4 (m4r3 A) v).

Definition col3 (M : Matrix3f) (j : nat) : Vector3f :=
  Vec3 (coeff3 M 0 j) (coeff3 M 1 j) (coeff3 M 2 j).

Definition transpose3 (M : Matrix3f) : Matrix3f :=
  Mat3 (col3 M 0) (col3 M 1) (col3 M 2).

Definition mul3 (A B : Matrix3f) : Matrix3f :=
  Mat3 (Vec3 (dot3 (m3r0 A) (col3 B 0)) (dot3 (m3r0 A) (col3 B 1))
             (dot3 (m3r0 A) (col3 B 2)))
       (Vec3 (dot3 (m3r1 A) (col3 B 0)) (dot3 (m3r1 A) (col3 B 1))
             (dot3 (m3r1 A) (col3 B 2)))
       (Vec3 (dot3 (m3r2 A) (col3 B 0)) (dot3 (m3r2 A) (col3 B 1))
             (dot3 (m3r2 A) (col3 B 2))).

Definition mul4 (A B : Matrix4f) : Matrix4f :=
  let r (a : Vector4f) :=
    Vec4 (dot4 a (col4 B 0)) (dot4 a (col4 B 1))
         (dot4 a (col4 B 2)) (dot4 a (col4 B 3)) in
  Mat4 (r (m4r0 A)) (r (m4r1 A)) (r (m4r2 A)) (r (m4r3 A)).

Definition determinant3 (M : Matrix3f) : R :=
  coeff3 M 0 0 * (coeff3 M 1 1 * coeff3 M 2 2 - coeff3 M 1 2 * coeff3 M 2 1)
  - coeff3 M 0 1 * (coeff3 M 1 0 * coeff3 M 2 2 - coeff3 M 1 2 * coeff3 M 2 0)
  + coeff3 M 0 2 * (coeff3 M 1 0 * coeff3 M 2 1 - coeff3 M 1 1 * coeff3 M 2 0).

Definition trace3 (M : Matrix3f) : R :=
  coeff3 M 0 0 + coeff3 M 1 1 + coeff3 M 2 2.

(** [Eigen::AngleAxisf]: the constructor stores its two arguments as they
    are (the axis is documented to be normalized by the caller). *)
Record AngleAxisf := mkAngleAxisf { m_angle : R; m_axis : Vector3f }.

(** [AngleAxis::toRotationMatrix()] (the [matrix()] member), coefficient by
    coefficient as Eigen/src/Geometry/AngleAxis.h writes it. *)
Definition toRotationMatrix (r : AngleAxisf) : Matrix3f :=
  let sin_axis := scale3 (sin (m_angle r)) (m_axis r) in
  let c := cos (m_angle r) in
  let cos1_axis := scale3 (1 - c) (m_axis r) in
  let res := Mat3 (Vec3 0 0 0) (Vec3 0 0 0) (Vec3 0 0 0) in
  let tmp := x3 cos1_axis * y3 (m_axis r) in
  let res := coeffRef3 res 0 1 (tmp - z3 sin_axis) in
  let res := coeffRef3 res 1 0 (tmp + z3 sin_axis) in
  let tmp := x3 cos1_axis * z3 (m_axis r) in
  let res := coeffRef3 res 0 2 (tmp + y3 sin_axis) in
  let res := coeffRef3 res 2 0 (tmp - y3 sin_axis) in
  let tmp := y3 cos1_axis * z3 (m_axis r) in
  let res := coeffRef3 res 1 2 (tmp - x3 sin_axis) in
  let res := coeffRef3 res 2 1 (tmp + x3 sin_axis) in
  let d := cwiseProduct cos1_axis (m_axis r) in
  let res := coeffRef3 res 0 0 (x3 d + c) in
  let res := coeffRef3 res 1 1 (y3 d + c) in
  let res := coeffRef3 res 2 2 (z3 d + c) in
  res.

End Eigen.
Import Eigen.

(** ** The entity: [class Model] *)

(** [Eigen::MatrixXf] is stored column-major; a matrix is the list of its
    columns, each a list of coefficients. *)
Definition MatrixXf := list (list R).

Record Model := mkModel {
  orientation_ : Vector3f;
  position_ : Vector3f;
  vertices_ : MatrixXf;
  indices_ : list GLuint
}.

Definition SetOrientation (m : Model) (orientation : Vector3f) : Model :=
  mkModel orientation (position_ m) (vertices_ m) (indices_ m).

Definition SetPosition (m : Model) (position : Vector3f) : Model :=
  mkModel (orientation_ m) position (vertices_ m) (indices_ m).

Definition GetOrientation (m : Model) : Vector3f := orientation_ m.
Definition GetPosition (m : Model) : Vector3f := position_ m.
Definition vertices (m : Model) : MatrixXf := vertices_ m.
Definition indices (m : Model) : list GLuint := indices_ m.

(** ** Helper functions *)

Definition ComputeTranslation (offset : Vector3f) : Matrix4f :=
  let transformation := Identity4 in
  let transformation := set_col4 transformation 3 (homogeneous offset) in
  transformation.

Definition ComputeRotation (axis : Vector3f) (angle : GLfloat) : Matrix4f :=
  let rotation := mkAngleAxisf angle axis in
  let transformation := Identity4 in
  let rot3 := toRotationMatrix rotation in
  let transformation := set_block33 transformation rot3 in
  transformation.

(** General form (six parameters). *)
Definition ComputeProjectionMatrix
    (left right top bottom near far : GLfloat) : Matrix4f :=
  let projection := Identity4 in
  let projection := coeffRef4 projection 0 0 (2 * near / (right - left)) in
  let projection := coeffRef4 projection 1 1 (2 * near / (top - bottom)) in
  let projection := coeffRef4 projection 2 2 (- (far + near) / (far - near)) in
  let projection := coeffRef4 projection 0 2 ((right + left) / (right - left)) in
  let projection := coeffRef4 projection 1 2 ((top + bottom) / (top - bottom)) in
  let projection := coeffRef4 projection 2 3 (-2 * far * near / (far - near)) in
  let projection := coeffRef4 projection 3 3 0 in
  let projection := coeffRef4 projection 3 2 (-1) in
  projection.

(** [static_cast<GLfloat>(M_PI)]: the [GLfloat] (binary32) number nearest
    to pi, 13176795 * 2^-22 = 3.14159274101257324... *)
Definition M_PI_float : GLfloat := 13176795 / 4194304.

(** [0.5f * static_cast<GLfloat>(M_PI)]; halving a [GLfloat] is exact. *)
Definition kHalfPi : GLfloat := 0.5 * M_PI_float.

Definition ComputeCotangent (angle : GLfloat) : GLfloat :=
  tan (kHalfPi - angle).

(** Reparametrization with four parameters (the second overload of
    [ComputeProjectionMatrix]). *)
Definition ComputeProjectionMatrix_fov
    (field_of_view aspect_ratio near far : GLfloat) : Matrix4f :=
  let y_scale := ComputeCotangent (0.5 * field_of_view) in
  let x_scale := y_scale / aspect_ratio in
  let planes_distance := far - near in
  let z_scale := - (near + far) / planes_distance in
  let homogeneous_scale := -2 * near * far / planes_distance in
  Mat4 (Vec4 x_scale 0 0 0)
       (Vec4 0 y_scale 0 0)
       (Vec4 0 0 z_scale homogeneous_scale)
       (Vec4 0 0 (-1) 0).

(** ** Rendering *)

(** The calls the program makes on its collaborators (OpenGL, GLFW and the
    standard output), in program order.  Only the arguments the program
    computes are recorded. *)
Inductive GLCall :=
| ClearTheFrameBuffer
| UseShaderProgram
| StdoutMatrix (label : string) (m : Matrix4f)
| glBindTexture (id : GLuint)
| glUniformMatrix4fv (name : string) (m : Matrix4f)
| glBindVertexArray (id : GLuint)
| glPolygonMode
| glDrawElements (count : Z)
| glfwSwapBuffers
| glfwPollEvents.

(** The three matrices [RenderScene] builds in its local variables
    [model] and [view] and receives in [projection]. *)
Record Uniforms := mkUniforms {
  u_model : Matrix4f;
  u_view : Matrix4f;
  u_projection : Matrix4f
}.

Definition RenderScene_matrices (projection : Matrix4f) (angle : GLfloat)
  : Uniforms :=
  let translation := ComputeTranslation (Vec3 0 0 (-5)) in
  let rotation := ComputeRotation (normalized (Vec3 0 1 0)) angle in
  let model := mul4 translation rotation in
  let view := Identity4 in
  mkUniforms model view projection.

(** [RenderScene]; the value [color_scalar] it reads from the clock is not
    used by the function and is left out. *)
Definition RenderScene (vertex_array_object_id : GLuint)
    (projection : Matrix4f) (angle : GLfloat) (texture_id : GLuint)
  : list GLCall :=
  let u := RenderScene_matrices projection angle in
  [ ClearTheFrameBuffer;
    UseShaderProgram;
    StdoutMatrix "Model" (u_model u);
    glBindTexture texture_id;
    glUniformMatrix4fv "model" (u_model u);
    glUniformMatrix4fv "view" (u_view u);
    glUniformMatrix4fv "projection" (u_projection u);
    glBindVertexArray vertex_array_object_id;
    glPolygonMode;
    glDrawElements 6%Z;
    glBindVertexArray 0%Z;
    glBindTexture 0%Z ].

(** ** [main]: set-up and the render loop *)

(** The 8 x 4 vertex table, one column per vertex: position, colour and
    texture coordinate. *)
Definition main_vertices : MatrixXf :=
  [ [0; 1; 0;  1; 0; 0;  0; 0];
    [0; 0; 0;  0; 1; 0;  0; 1];
    [1; 1; 0;  0; 0; 1;  1; 0];
    [1; 0; 0;  1; 0; 0;  1; 1] ].

Definition main_indices : list GLuint := [0; 1; 3; 0; 3; 2]%Z.

Definition main_model : Model :=
  mkModel (Vec3 0 0 0) (Vec3 0 0 0) main_vertices main_indices.

Definition field_of_view : GLfloat := 45.

(** [kWindowWidth / kWindowHeight] is a quotient of two [int]s, converted
    to [GLfloat] afterwards. *)
Definition aspect_ratio : GLfloat := IZR (Z.quot kWindowWidth kWindowHeight).

Definition projection_matrix : Matrix4f :=
  ComputeProjectionMatrix_fov field_of_view aspect_ratio 0.1 10.

Definition rotation_speed : GLfloat := 50.

(** The variables of [main] that are live in the loop, with the log of the
    calls made so far. *)
Record MainState := mkMainState {
  model : Model;
  vertex_array_object_id : GLuint;
  texture_id : GLuint;
  angle : GLfloat;
  gl_log : list GLCall
}.

(** The state on entry to the loop, for the buffer and texture ids the
    set-up calls returned. *)
Definition main_init (vao tex : GLuint) : MainState :=
  mkMainState main_model vao tex 0 [StdoutMatrix "" projection_matrix].

(** The angle assignment of the loop body, for the clock reading [time]. *)
Definition loop_angle (time : R) : GLfloat :=
  rotation_speed * time * M_PI / 180.

(** One iteration of the loop body. *)
Definition loop_body (time : R) (s : MainState) : MainState :=
  let angle := loop_angle time in
  let calls :=
    RenderScene (vertex_array_object_id s) projection_matrix angle
                (texture_id s) in
  mkMainState (model s) (vertex_array_object_id s) (texture_id s) angle
              (gl_log s ++ calls ++ [glfwSwapBuffers; glfwPollEvents]).

(** What the program observes of its environment at each loop test:
    [glfwWindowShouldClose(window)] and, when the body runs, the clock
    [glfwGetTime()]. *)
Record Tick := mkTick { windowShouldClose : bool; glfwGetTime : R }.

(** The [while] loop over a finite run of observations; it leaves the loop
    at the first close request. *)
Fixpoint main_loop (env : list Tick) (s : MainState) : MainState :=
  match env with
  | [] => s
  | tk :: env' =>
      if windowShouldClose tk then s
      else main_loop env' (loop_body (glfwGetTime tk) s)
  end.

(** ** Notions the statements use *)

(** A 3 x 3 matrix is orthogonal when its transpose is its inverse on both
    sides. *)
Definition orthogonal3 (M : Matrix3f) : Prop :=
  mul3 (transpose3 M) M = Identity3 /\ mul3 M (transpose3 M) = Identity3.

(** The homogeneous divide of a clip-space vector is defined when its [w]
    is not zero. *)
Definition divides_to (clip : Vector4f) (ndc : Vector3f) : Prop :=
  w4 clip <> 0 /\
  ndc = Vec3 (x4 clip / w4 clip) (y4 clip / w4 clip) (z4 clip / w4 clip).


(** The matrix [c' I + q a a^T] that the Gram matrix of a rotation block
    reduces to. *)
Definition gram_form (c' q : R) (a : Vector3f) : Matrix3f :=
  Mat3 (Vec3 (c' + q * (x3 a * x3 a)) (q * (x3 a * y3 a)) (q * (x3 a * z3 a)))
       (Vec3 (q * (y3 a * x3 a)) (c' + q * (y3 a * y3 a)) (q * (y3 a * z3 a)))
       (Vec3 (q * (z3 a * x3 a)) (q * (z3 a * y3 a)) (c' + q * (z3 a * z3 a))).

(** The two coefficients of that form for the block of
    [ComputeRotation a theta]. *)
Definition gram_diag (a : Vector3f) (theta : R) : R :=
  cos theta * cos theta + sin theta * sin theta * squaredNorm a.

Definition gram_rank1 (a : Vector3f) (theta : R) : R :=
  2 * cos theta * (1 - cos theta)
  + (1 - cos theta) * (1 - cos theta) * squaredNorm a
  - sin theta * sin theta.

(** ** Input, buffers and the whole of [main] *)

(** [GLFW_KEY_ESCAPE] and [GLFW_PRESS] of GLFW/glfw3.h. *)
Definition GLFW_KEY_ESCAPE : Z := 256.
Definition GLFW_PRESS : Z := 1.

Record KeyEvent := mkKeyEvent {
  key : Z;
  scancode : Z;
  action : Z;
  mods : Z
}.

(** [KeyCallback], as a function of the window's close flag: the call
    [glfwSetWindowShouldClose(window, GL_TRUE)] sets it. *)
Definition KeyCallback (should_close : bool) (e : KeyEvent) : bool :=
  if andb (key e =? GLFW_KEY_ESCAPE)%Z (action e =? GLFW_PRESS)%Z
  then true
  else should_close.

(** The key events delivered during one [glfwPollEvents()], in order. *)
Definition deliver_keys (events : list KeyEvent) (should_close : bool) : bool :=
  fold_left KeyCallback events should_close.

(** The two constructors of [Model]; the second leaves [indices_] as the
    default, empty vector. *)
Definition Model_4 (orientation position : Vector3f) (vertices : MatrixXf)
    (indices : list GLuint) : Model :=
  mkModel orientation position vertices indices.

Definition Model_3 (orientation position : Vector3f) (vertices : MatrixXf)
  : Model :=
  mkModel orientation position vertices [].

(** [rows()], [cols()] and [data()] of a [MatrixXf]. *)
Definition rows (m : MatrixXf) : Z :=
  match m with
  | [] => 0
  | c :: _ => Z.of_nat (List.length c)
  end.

Definition cols (m : MatrixXf) : Z := Z.of_nat (List.length m).

Definition data (m : MatrixXf) : list R := List.concat m.

(** Every column of a matrix holds [n] coefficients. *)
Definition rectangular (n : nat) (m : MatrixXf) : Prop :=
  Forall (fun c => List.length c = n) m.

(** Conversion of a size to [int] (32 bits, two's complement). *)
Definition int_cast (z : Z) : Z := ((z + 2 ^ 31) mod 2 ^ 32 - 2 ^ 31)%Z.

Definition sizeof_GLuint : Z := 4.
Definition sizeof_GLfloat : Z := 4.

(** The byte counts [SetElementBufferObject] and [SetVertexBufferObject]
    hand to [glBufferData]. *)
Definition indices_size_in_bytes (model : Model) : Z :=
  int_cast (Z.of_nat (List.length (indices model)) * sizeof_GLuint).

Definition vertices_size_in_bytes (model : Model) : Z :=
  int_cast (rows (vertices model) * cols (vertices model) * sizeof_GLfloat).

(** The arguments of a [glVertexAttribPointer] call: attribute index,
    number of components, stride and offset in bytes. *)
Record VertexAttrib := mkVertexAttrib {
  attrib_index : Z;
  attrib_size : Z;
  attrib_stride : Z;
  attrib_offset : Z
}.

Definition kStride : Z := 8 * sizeof_GLfloat.

(** The three [glVertexAttribPointer] calls of [SetVertexBufferObject]. *)
Definition SetVertexBufferObject_attribs : list VertexAttrib :=
  [ mkVertexAttrib 0 3 kStride 0;
    mkVertexAttrib 1 3 kStride (3 * sizeof_GLfloat);
    mkVertexAttrib 2 2 kStride (6 * sizeof_GLfloat) ].

(** Component [j] of an attribute for vertex [k], as OpenGL reads it from
    a buffer of floats: at the byte [offset + k * stride + j * 4]. *)
Definition fetch (buffer : list R) (a : VertexAttrib) (k j : nat) : option R :=
  nth_error buffer
    (Z.to_nat ((attrib_offset a + Z.of_nat k * attrib_stride a
                + Z.of_nat j * sizeof_GLfloat) / sizeof_GLfloat)).

(** The coefficient [m(i, k)]. *)
Definition coeffX (m : MatrixXf) (i k : nat) : option R :=
  match nth_error m k with
  | Some c => nth_error c i
  | None => None
  end.

(** The binding state of OpenGL that the calls of [RenderScene] act on,
    with the record of what each draw call saw. *)
Record DrawCall := mkDrawCall {
  draw_count : Z;
  draw_texture : GLuint;
  draw_vertex_array : GLuint;
  draw_uniforms : list (string * Matrix4f)
}.

Record GLState := mkGLState {
  bound_texture : GLuint;
  bound_vertex_array : GLuint;
  uniforms : list (string * Matrix4f);
  drawn : list DrawCall
}.

Fixpoint uniform_value (name : string) (us : list (string * Matrix4f))
  : option Matrix4f :=
  match us with
  | [] => None
  | (n, m) :: rest => if String.eqb n name then Some m else uniform_value name rest
  end.

Definition gl_step (st : GLState) (c : GLCall) : GLState :=
  match c with
  | glBindTexture id =>
      mkGLState id (bound_vertex_array st) (uniforms st) (drawn st)
  | glBindVertexArray id =>
      mkGLState (bound_texture st) id (uniforms st) (drawn st)
  | glUniformMatrix4fv name m =>
      mkGLState (bound_texture st) (bound_vertex_array st)
                ((name, m) :: uniforms st) (drawn st)
  | glDrawElements n =>
      mkGLState (bound_texture st) (bound_vertex_array st) (uniforms st)
                (drawn st ++ [mkDrawCall n (bound_texture st)
                                         (bound_vertex_array st) (uniforms st)])
  | _ => st
  end.

Definition gl_run (calls : list GLCall) (st : GLState) : GLState :=
  fold_left gl_step calls st.

(** The angle assignment of the loop body with its conversions written
    out: [to_float] is the rounding of a number to [GLfloat] and
    [to_double] the rounding to [double].  The clock is cast to [GLfloat],
    the product with [rotation_speed] is a [GLfloat] product, the product
    with [M_PI] and the quotient by [180.f] are [double] operations, and
    the result is stored in a [GLfloat]. *)
Section Conversions.

Variables to_float to_double : R -> R.

Definition loop_angle_rounded (time : R) : GLfloat :=
  to_float
    (to_double
       (to_double (to_float (rotation_speed * to_float time) * M_PI) / 180)).

End Conversions.

(** Counting the frames of a run: the draw calls in a log, and the
    observations before the first close request. *)
Definition is_draw (c : GLCall) : bool :=
  match c with
  | glDrawElements _ => true
  | _ => false
  end.

Definition count_draws (log : list GLCall) : nat :=
  List.length (filter is_draw log).

Fixpoint frames_before_close (env : list Tick) : nat :=
  match env with
  | [] => 0
  | tk :: env' =>
      if windowShouldClose tk then 0%nat else S (frames_before_close env')
  end.

(** The calls of [main] outside the frames, and the frames' calls. *)
Inductive Call :=
| ParseCommandLineFlags
| InitGoogleLogging
| glfwInit
| glfwSetErrorCallback
| CallSetWindowHints
| glfwCreateWindow (width height : Z) (title : string)
| glfwTerminate
| glfwMakeContextCurrent
| glfwSwapInterval (interval : Z)
| glfwSetKeyCallback
| glewInit
| ToStderr (msg : string)
| ToStdout (msg : string)
| CallConfigureViewPort
| LoadVertexShaderFromFile (path : string)
| LoadFragmentShaderFromFile (path : string)
| ShaderProgramCreate
| CallSetVertexArrayObject (m : Model)
| CallLoadTexture (path : string)
| Frame (c : GLCall)
| glDeleteVertexArrays (id : GLuint)
| glDeleteBuffers (id : GLuint)
| glfwDestroyWindow.

(** What [main] reads and what its collaborators answer. *)
Record Environment := mkEnvironment {
  FLAGS_vertex_shader_filepath : string;
  FLAGS_fragment_shader_filepath : string;
  FLAGS_texture_filepath : string;
  glfwInit_ok : bool;
  window_created : bool;
  glewInit_ok : bool;
  Create_ok : bool;
  error_info_log : string;
  shader_program_id : GLuint;
  new_vertex_buffer_object_id : GLuint;
  new_vertex_array_object_id : GLuint;
  new_element_buffer_object_id : GLuint;
  new_texture_id : GLuint;
  ticks : list Tick
}.

(** Whether a close request is among the observations of a run. *)
Definition close_requested (env : list Tick) : bool :=
  existsb windowShouldClose env.

(** [main]: the exit code and the calls made, in order, of a run that
    returns.  The loop is left only at a close request: when the
    observations end without one the program is still in its loop and
    there is no result. *)
Definition main (e : Environment) : option (Z * list Call) :=
  let log := [ParseCommandLineFlags; InitGoogleLogging; glfwInit] in
  if negb (glfwInit_ok e) then Some ((-1)%Z, log) else
  let log := log ++ [glfwSetErrorCallback; CallSetWindowHints;
                     glfwCreateWindow kWindowWidth kWindowHeight
                                      "Hello Triangle"] in
  if negb (window_created e) then Some ((-1)%Z, log ++ [glfwTerminate]) else
  let log := log ++ [glfwMakeContextCurrent; glfwSwapInterval 1;
                     glfwSetKeyCallback; glewInit] in
  if negb (glewInit_ok e)
  then Some ((-1)%Z, log ++ [ToStderr "Glew did not initialize properly!";
                             glfwTerminate])
  else
  let log := log ++ [CallConfigureViewPort;
                     ToStdout (FLAGS_vertex_shader_filepath e);
                     ToStdout (FLAGS_fragment_shader_filepath e);
                     LoadVertexShaderFromFile (FLAGS_vertex_shader_filepath e);
                     LoadFragmentShaderFromFile
                       (FLAGS_fragment_shader_filepath e);
                     ShaderProgramCreate] in
  let log := if negb (Create_ok e)
             then log ++ [ToStdout (String.append "ERROR: " (error_info_log e))]
             else log in
  if (shader_program_id e =? 0)%Z
  then Some ((-1)%Z,
             log ++ [ToStderr "ERROR: Could not create a shader program."])
  else
  let model := Model_4 (Vec3 0 0 0) (Vec3 0 0 0) main_vertices main_indices in
  let log := log ++ [CallSetVertexArrayObject model;
                     CallLoadTexture (FLAGS_texture_filepath e)] in
  if close_requested (ticks e) then
    let s := main_loop (ticks e)
               (main_init (new_vertex_array_object_id e) (new_texture_id e)) in
    let log := log ++ map Frame (gl_log s) in
    Some (0%Z, log ++ [glDeleteVertexArrays (new_vertex_array_object_id e);
                       glDeleteBuffers (new_vertex_buffer_object_id e);
                       glfwDestroyWindow;
                       glfwTerminate])
  else None.

Definition count_terminate (log : list Call) : nat :=
  List.length (filter (fun c => match c with glfwTerminate => true | _ => false end)
                 log).

(** ** Further notions the statements use *)

(** The matrix [c' I + q a a^T + s [a]x] embedded in a 4 x 4 identity:
    the shape of every [ComputeRotation a theta]. *)
Definition axis_angle_form (c' q s : R) (a : Vector3f) : Matrix4f :=
  Mat4 (Vec4 (c' + q * (x3 a * x3 a)) (q * (x3 a * y3 a) - s * z3 a)
             (q * (x3 a * z3 a) + s * y3 a) 0)
       (Vec4 (q * (x3 a * y3 a) + s * z3 a) (c' + q * (y3 a * y3 a))
             (q * (y3 a * z3 a) - s * x3 a) 0)
       (Vec4 (q * (x3 a * z3 a) - s * y3 a) (q * (y3 a * z3 a) + s * x3 a)
             (c' + q * (z3 a * z3 a)) 0)
       (Vec4 0 0 0 1).

(** The position attribute of a vertex column. *)
Definition vertex_position (column : list R) : Vector3f :=
  Vec3 (nth 0 column 0) (nth 1 column 0) (nth 2 column 0).

(** A call of a setter of [Model], and a sequence of such calls. *)
Inductive SetterCall :=
| CallSetOrientation (orientation : Vector3f)
| CallSetPosition (position : Vector3f).

Definition call_setter (m : Model) (c : SetterCall) : Model :=
  match c with
  | CallSetOrientation o => SetOrientation m o
  | CallSetPosition p => SetPosition m p
  end.

Definition call_setters (calls : list SetterCall) (m : Model) : Model :=
  fold_left call_setter calls m.

(** The index count [RenderScene] passes to [glDrawElements], and whether
    a draw of that many [GLuint] indices stays inside the element buffer
    that [SetElementBufferObject] filled for a model. *)
Definition draw_index_count : Z := 6.

Definition draw_in_bounds (model : Model) : Prop :=
  (draw_index_count * sizeof_GLuint <= indices_size_in_bytes model)%Z.

(** The set-up of [main] succeeds when GLFW and GLEW initialize, the
    window exists and the shader program has a non-zero id. *)
Definition setup_succeeds (e : Environment) : bool :=
  glfwInit_ok e && window_created e && glewInit_ok e
  && negb (shader_program_id e =? 0)%Z.

(** The calls of the frames within the calls of [main]. *)
Definition frame_calls (log : list Call) : list GLCall :=
  flat_map (fun c => match c with Frame g => [g] | _ => [] end) log.

(** The calls of [main] before the loop when the set-up succeeds. *)
Definition setup_calls (e : Environment) : list Call :=
  [ParseCommandLineFlags; InitGoogleLogging; glfwInit;
   glfwSetErrorCallback; CallSetWindowHints;
   glfwCreateWindow kWindowWidth kWindowHeight "Hello Triangle";
   glfwMakeContextCurrent; glfwSwapInterval 1; glfwSetKeyCallback; glewInit;
   CallConfigureViewPort;
   ToStdout (FLAGS_vertex_shader_filepath e);
   ToStdout (FLAGS_fragment_shader_filepath e);
   LoadVertexShaderFromFile (FLAGS_vertex_shader_filepath e);
   LoadFragmentShaderFromFile (FLAGS_fragment_shader_filepath e);
   ShaderProgramCreate]
  ++ (if Create_ok e then []
      else [ToStdout (String.append "ERROR: " (error_info_log e))])
  ++ [CallSetVertexArrayObject
        (Model_4 (Vec3 0 0 0) (Vec3 0 0 0) main_vertices main_indices);
      CallLoadTexture (FLAGS_texture_filepath e)].

(** The calls of a run of [main] that passes the set-up and is closed. *)
Definition finished_calls (e : Environment) : list Call :=
  setup_calls e
  ++ map Frame
       (gl_log (main_loop (ticks e)
                  (main_init (new_vertex_array_object_id e)
                             (new_texture_id e))))
  ++ [glDeleteVertexArrays (new_vertex_array_object_id e);
      glDeleteBuffers (new_vertex_buffer_object_id e);
      glfwDestroyWindow; glfwTerminate].

(** * Proofs *)

(** ** Tactics *)

Ltac eigen_unfold :=
  cbv [ComputeTranslation ComputeRotation ComputeProjectionMatrix
    ComputeProjectionMatrix_fov toRotationMatrix orthogonal3
    mul4 mul3 mulv4 mulv3 transpose3 col4 col3 coeff4 coeff3
    coeffRef4 coeffRef3 set_col4 set_block33 block33 homogeneous
    cwiseProduct scale3 add3 div3 dot4 dot3 cross determinant3
    trace3 Identity4 Identity3
    row3 row4 vcoeff3 vcoeff4 vset3 vset4 set_row3 set_row4
    x3 y3 z3 x4 y4 z4 w4 m3r0 m3r1 m3r2 m4r0 m4r1 m4r2 m4r3
    m_angle m_axis].

(** Splits an equation between records into its coefficient equations. *)
Ltac by_coefficients :=
  repeat match goal with
         | |- Mat4 _ _ _ _ = Mat4 _ _ _ _ => f_equal
         | |- Mat3 _ _ _ = Mat3 _ _ _ => f_equal
         | |- Vec4 _ _ _ _ = Vec4 _ _ _ _ => f_equal
         | |- Vec3 _ _ _ = Vec3 _ _ _ => f_equal
         end.

(** ** Rotation: the Gram matrix of the block *)

Lemma sin_cos_sq (t : R) : sin t * sin t + cos t * cos t = 1.
Proof. generalize (sin2_cos2 t). unfold Rsqr. tauto. Qed.

Lemma rotation_gram_left (a : Vector3f) (theta : R) :
  let B := block33 (ComputeRotation a theta) in
  mul3 (transpose3 B) B = gram_form (gram_diag a theta) (gram_rank1 a theta) a.
Proof.
  destruct a as [x y z].
  unfold gram_form, gram_diag, gram_rank1, squaredNorm. eigen_unfold.
  by_coefficients; ring.
Qed.

Lemma rotation_gram_right (a : Vector3f) (theta : R) :
  let B := block33 (ComputeRotation a theta) in
  mul3 B (transpose3 B) = gram_form (gram_diag a theta) (gram_rank1 a theta) a.
Proof.
  destruct a as [x y z].
  unfold gram_form, gram_diag, gram_rank1, squaredNorm. eigen_unfold.
  by_coefficients; ring.
Qed.

Lemma gram_unit (a : Vector3f) (theta : R) :
  squaredNorm a = 1 -> gram_diag a theta = 1 /\ gram_rank1 a theta = 0.
Proof.
  intros Hn. unfold gram_diag, gram_rank1. rewrite Hn.
  pose proof (sin_cos_sq theta). split; nra.
Qed.

Lemma gram_form_identity (a : Vector3f) : gram_form 1 0 a = Identity3.
Proof. unfold gram_form, Identity3. by_coefficients; ring. Qed.

Lemma rotation_orthogonal_unit (a : Vector3f) (theta : R) :
  squaredNorm a = 1 -> orthogonal3 (block33 (ComputeRotation a theta)).
Proof.
  intros Hn. destruct (gram_unit a theta Hn) as [Hd Hq].
  split.
  - rewrite rotation_gram_left, Hd, Hq. apply gram_form_identity.
  - rewrite rotation_gram_right, Hd, Hq. apply gram_form_identity.
Qed.

Lemma rotation_axis_image (a : Vector3f) (theta : R) :
  mulv3 (block33 (ComputeRotation a theta)) a =
  scale3 (cos theta + (1 - cos theta) * squaredNorm a) a.
Proof.
  destruct a as [x y z]. unfold squaredNorm. eigen_unfold.
  by_coefficients; ring.
Qed.

Lemma rotation_determinant (a : Vector3f) (theta : R) :
  determinant3 (block33 (ComputeRotation a theta)) =
  (cos theta + (1 - cos theta) * squaredNorm a) * gram_diag a theta.
Proof.
  destruct a as [x y z]. unfold gram_diag, squaredNorm. eigen_unfold. ring.
Qed.

Lemma rotation_trace (a : Vector3f) (theta : R) :
  trace3 (block33 (ComputeRotation a theta)) =
  3 * cos theta + (1 - cos theta) * squaredNorm a.
Proof.
  destruct a as [x y z]. unfold squaredNorm. eigen_unfold. ring.
Qed.

(** ** Norms and [normalized()] *)

Lemma squaredNorm_nonneg (a : Vector3f) : 0 <= squaredNorm a.
Proof. destruct a as [x y z]. unfold squaredNorm, dot3; cbn. nra. Qed.

Lemma norm_unit_squared (a : Vector3f) : norm a = 1 -> squaredNorm a = 1.
Proof.
  unfold norm. intros H.
  pose proof (sqrt_sqrt _ (squaredNorm_nonneg a)) as E.
  rewrite H in E. lra.
Qed.

Lemma normalized_unit (a : Vector3f) :
  squaredNorm a <> 0 -> squaredNorm (normalized a) = 1.
Proof.
  intros Hk. pose proof (squaredNorm_nonneg a) as H0.
  unfold normalized. destruct (Rlt_dec 0 (squaredNorm a)) as [Hpos | Hn]; [| lra].
  pose proof (sqrt_sqrt _ H0) as E.
  pose proof (sqrt_lt_R0 _ Hpos) as Hr.
  set (r := sqrt (squaredNorm a)) in *.
  destruct a as [x y z]. unfold squaredNorm, dot3, div3 in *; cbn in *.
  field_simplify_eq; [nra | lra].
Qed.

Lemma normalized_rescales (a : Vector3f) :
  squaredNorm a <> 0 -> a = scale3 (norm a) (normalized a).
Proof.
  intros Hk. pose proof (squaredNorm_nonneg a) as H0.
  unfold normalized, norm.
  destruct (Rlt_dec 0 (squaredNorm a)) as [Hpos | Hn]; [| lra].
  pose proof (sqrt_lt_R0 _ Hpos) as Hr.
  set (r := sqrt (squaredNorm a)) in *.
  destruct a as [x y z]. unfold scale3, div3; cbn.
  by_coefficients; field; lra.
Qed.

Lemma mulv3_scale (M : Matrix3f) (s : R) (v : Vector3f) :
  mulv3 M (scale3 s v) = scale3 s (mulv3 M v).
Proof.
  destruct M as [[a b c] [d e f] [g h i]], v as [x y z].
  eigen_unfold. by_coefficients; ring.
Qed.

Lemma scale3_one (v : Vector3f) : scale3 1 v = v.
Proof. destruct v. unfold scale3; cbn. by_coefficients; ring. Qed.

Lemma normalized_unit_y : normalized (Vec3 0 1 0) = Vec3 0 1 0.
Proof.
  unfold normalized, squaredNorm, dot3, div3; cbn.
  replace (0 * 0 + 1 * 1 + 0 * 0) with 1 by ring.
  rewrite sqrt_1. destruct (Rlt_dec 0 1); [| lra].
  by_coefficients; field.
Qed.

(** ** [ComputeRotation] *)

Lemma ComputeRotation_zero_angle (a : Vector3f) :
  ComputeRotation a 0 = Identity4.
Proof.
  destruct a as [x y z]. eigen_unfold. rewrite sin_0, cos_0.
  by_coefficients; ring.
Qed.

Lemma ComputeRotation_last_row (a : Vector3f) (theta : R) :
  row4 (ComputeRotation a theta) 3 = Vec4 0 0 0 1.
Proof. reflexivity. Qed.

Lemma ComputeRotation_last_col (a : Vector3f) (theta : R) :
  col4 (ComputeRotation a theta) 3 = Vec4 0 0 0 1.
Proof. reflexivity. Qed.

(** C4: for a unit axis the 3x3 block of [ComputeRotation] is orthogonal,
    the rotation by the angle 0 is the identity matrix, and the fourth row
    and the fourth column are those of the identity matrix. *)
Theorem ComputeRotation_unit_axis (a : Vector3f) (theta : R) :
  norm a = 1 ->
  orthogonal3 (block33 (ComputeRotation a theta)) /\
  ComputeRotation a 0 = Identity4 /\
  row4 (ComputeRotation a theta) 3 = row4 Identity4 3 /\
  col4 (ComputeRotation a theta) 3 = col4 Identity4 3.
Proof.
  intros Hn. apply norm_unit_squared in Hn.
  split; [apply rotation_orthogonal_unit; exact Hn |].
  split; [apply ComputeRotation_zero_angle |].
  split; reflexivity.
Qed.

Lemma ComputeRotation_unit_axis_witness :
  norm (Vec3 0 1 0) = 1 /\
  orthogonal3 (block33 (ComputeRotation (Vec3 0 1 0) (PI / 2))).
Proof.
  assert (H : norm (Vec3 0 1 0) = 1).
  { unfold norm, squaredNorm, dot3; cbn.
    replace (0 * 0 + 1 * 1 + 0 * 0) with 1 by ring. apply sqrt_1. }
  split; [exact H |].
  exact (proj1 (ComputeRotation_unit_axis (Vec3 0 1 0) (PI / 2) H)).
Defined.

Lemma squared_unit_norm (a : Vector3f) : squaredNorm a = 1 -> norm a = 1.
Proof. unfold norm. intros ->. apply sqrt_1. Qed.

Lemma gram_trivial_angle (a : Vector3f) (theta : R) :
  cos theta = 1 -> gram_diag a theta = 1 /\ gram_rank1 a theta = 0.
Proof.
  intros Hc. pose proof (sin_cos_sq theta) as Hsc.
  assert (Hs : sin theta * sin theta = 0) by (rewrite Hc in Hsc; lra).
  unfold gram_diag, gram_rank1. rewrite Hc.
  replace (sin theta * sin theta * squaredNorm a)
    with ((sin theta * sin theta) * squaredNorm a) by ring.
  rewrite Hs. split; ring.
Qed.

Lemma gram_identity_inv (a : Vector3f) (theta : R) :
  squaredNorm a <> 0 ->
  gram_form (gram_diag a theta) (gram_rank1 a theta) a = Identity3 ->
  squaredNorm a = 1 \/ cos theta = 1.
Proof.
  intros Hk H. pose proof (squaredNorm_nonneg a) as H0.
  pose proof (sin_cos_sq theta) as Hsc.
  pose proof (COS_bound theta) as [Hc1 Hc2].
  revert H. unfold gram_form, Identity3.
  set (d := gram_diag a theta). set (q := gram_rank1 a theta).
  assert (Hdq : d + q * squaredNorm a
                = (cos theta + (1 - cos theta) * squaredNorm a)
                  * (cos theta + (1 - cos theta) * squaredNorm a)).
  { unfold d, q, gram_diag, gram_rank1. ring. }
  destruct a as [x y z]. unfold squaredNorm, dot3 in *; cbn [x3 y3 z3] in *.
  set (k := x * x + y * y + z * z) in *.
  intros H. injection H as E00 E01 E02 E10 E11 E12 E20 E21 E22.
  assert (Hsum : k * (d + q * k) = k * 1).
  { transitivity
      (x * x * (d + q * (x * x)) + y * y * (d + q * (y * y))
       + z * z * (d + q * (z * z))
       + 2 * (x * y) * (q * (x * y)) + 2 * (x * z) * (q * (x * z))
       + 2 * (y * z) * (q * (y * z))).
    - unfold k. ring.
    - rewrite E00, E11, E22, E01, E02, E12. unfold k. ring. }
  apply Rmult_eq_reg_l in Hsum; [| exact Hk].
  rewrite Hdq in Hsum.
  set (l := cos theta + (1 - cos theta) * k) in *.
  assert (Hl : (l - 1) * (l + 1) = 0) by lra.
  apply Rmult_integral in Hl. destruct Hl as [Hl | Hl].
  - assert (Hp : (1 - cos theta) * (k - 1) = 0) by (unfold l in Hl; lra).
    apply Rmult_integral in Hp. destruct Hp; [right | left]; lra.
  - exfalso. unfold l in Hl.
    assert (0 <= (1 - cos theta) * k) by (apply Rmult_le_pos; lra).
    assert (Hc : cos theta = -1) by lra.
    rewrite Hc in Hl. lra.
Qed.

Lemma rotation_orthogonal_iff (a : Vector3f) (theta : R) :
  squaredNorm a <> 0 ->
  orthogonal3 (block33 (ComputeRotation a theta)) <->
  norm a = 1 \/ cos theta = 1.
Proof.
  intros Hk. split.
  - intros [H _]. rewrite rotation_gram_left in H.
    destruct (gram_identity_inv a theta Hk H) as [Hn | Hc];
      [left; apply squared_unit_norm; exact Hn | right; exact Hc].
  - intros [Hn | Hc].
    + apply rotation_orthogonal_unit, norm_unit_squared, Hn.
    + destruct (gram_trivial_angle a theta Hc) as [Hd Hq]. split.
      * rewrite rotation_gram_left, Hd, Hq. apply gram_form_identity.
      * rewrite rotation_gram_right, Hd, Hq. apply gram_form_identity.
Qed.

Lemma rotation_rodrigues (u p : Vector3f) (theta : R) :
  mulv3 (block33 (ComputeRotation u theta)) p
  = add3 (add3 (scale3 (cos theta) p)
               (scale3 ((1 - cos theta) * dot3 u p) u))
         (scale3 (sin theta) (cross u p)).
Proof.
  destruct u as [x y z], p as [a b c]. eigen_unfold. by_coefficients; ring.
Qed.

Lemma rotation_sense (u p : Vector3f) (theta : R) :
  dot3 p (mulv3 (block33 (ComputeRotation u theta)) p)
    = cos theta * squaredNorm p + (1 - cos theta) * (dot3 u p * dot3 u p) /\
  dot3 u (cross p (mulv3 (block33 (ComputeRotation u theta)) p))
    = sin theta * (squaredNorm u * squaredNorm p - dot3 u p * dot3 u p).
Proof.
  destruct u as [x y z], p as [a b c]. unfold squaredNorm. eigen_unfold.
  split; ring.
Qed.

Lemma normalized_perpendicular (a p : Vector3f) :
  squaredNorm a <> 0 -> dot3 a p = 0 -> dot3 (normalized a) p = 0.
Proof.
  intros Hk Hp. pose proof (squaredNorm_nonneg a) as H0.
  assert (Hr : 0 < norm a) by (unfold norm; apply sqrt_lt_R0; lra).
  rewrite (normalized_rescales a Hk) in Hp.
  assert (E : dot3 (scale3 (norm a) (normalized a)) p
              = norm a * dot3 (normalized a) p).
  { destruct (normalized a) as [x y z], p as [u v w]. eigen_unfold. ring. }
  rewrite E in Hp. apply Rmult_integral in Hp. destruct Hp; lra.
Qed.

(** C5, as the program has it: [ComputeRotation] takes the axis as given.
    For a non-zero axis the 3x3 block is orthogonal exactly when the axis
    has unit length or the angle is a multiple of a full turn.  With the
    axis passed through [normalized()], as [RenderScene] does, the block is
    a rotation matrix (orthogonal, determinant 1) that fixes the axis and
    is the right-handed rotation by the angle about it: it acts by
    Rodrigues' formula
    [p -> cos(t) p + (1 - cos(t)) (u.p) u + sin(t) (u x p)], so a vector
    [p] perpendicular to the axis is turned by the angle whose cosine is
    [cos(t)] and whose sine, counted positive from [p] towards [u x p], is
    [sin(t)]. *)
Theorem ComputeRotation_needs_normalized_axis (a : Vector3f) (theta : R) :
  squaredNorm a <> 0 ->
  (orthogonal3 (block33 (ComputeRotation a theta)) <->
   norm a = 1 \/ cos theta = 1) /\
  orthogonal3 (block33 (ComputeRotation (normalized a) theta)) /\
  determinant3 (block33 (ComputeRotation (normalized a) theta)) = 1 /\
  mulv3 (block33 (ComputeRotation (normalized a) theta)) a = a /\
  trace3 (block33 (ComputeRotation (normalized a) theta)) = 1 + 2 * cos theta /\
  (forall p,
     mulv3 (block33 (ComputeRotation (normalized a) theta)) p
     = add3 (add3 (scale3 (cos theta) p)
                  (scale3 ((1 - cos theta) * dot3 (normalized a) p)
                          (normalized a)))
            (scale3 (sin theta) (cross (normalized a) p))) /\
  (forall p, dot3 a p = 0 ->
     dot3 p (mulv3 (block33 (ComputeRotation (normalized a) theta)) p)
       = cos theta * squaredNorm p /\
     dot3 (normalized a)
          (cross p (mulv3 (block33 (ComputeRotation (normalized a) theta)) p))
       = sin theta * squaredNorm p).
Proof.
  intros Hk. pose proof (normalized_unit a Hk) as Hu.
  destruct (gram_unit (normalized a) theta Hu) as [Hd _].
  split; [apply rotation_orthogonal_iff; exact Hk |].
  split; [apply rotation_orthogonal_unit; exact Hu |].
  split; [rewrite rotation_determinant, Hd, Hu; ring |].
  split.
  { rewrite (normalized_rescales a Hk) at 2 3.
    rewrite mulv3_scale, rotation_axis_image, Hu.
    replace (cos theta + (1 - cos theta) * 1) with 1 by ring.
    rewrite scale3_one. reflexivity. }
  split; [rewrite rotation_trace, Hu; ring |].
  split; [intros p; apply rotation_rodrigues |].
  intros p Hp. pose proof (normalized_perpendicular a p Hk Hp) as Hup.
  destruct (rotation_sense (normalized a) p theta) as [E1 E2].
  rewrite E1, E2, Hu, Hup. split; ring.
Qed.

Lemma ComputeRotation_needs_normalized_axis_witness :
  squaredNorm (Vec3 0 2 0) <> 0 /\
  orthogonal3 (block33 (ComputeRotation (normalized (Vec3 0 2 0)) PI)).
Proof.
  assert (H : squaredNorm (Vec3 0 2 0) <> 0).
  { unfold squaredNorm, dot3; cbn. lra. }
  split; [exact H |].
  exact (proj1 (proj2 (ComputeRotation_needs_normalized_axis (Vec3 0 2 0) PI H))).
Defined.

(** C5 as stated fails: for the non-zero axis (0, 2, 0) and the angle pi
    the 3x3 block of [ComputeRotation] is diag(-1, 7, -1), which is not
    orthogonal. *)
Lemma ComputeRotation_nonunit_axis_counterexample :
  squaredNorm (Vec3 0 2 0) <> 0 /\
  block33 (ComputeRotation (Vec3 0 2 0) PI) =
    Mat3 (Vec3 (-1) 0 0) (Vec3 0 7 0) (Vec3 0 0 (-1)) /\
  ~ orthogonal3 (block33 (ComputeRotation (Vec3 0 2 0) PI)).
Proof.
  split; [unfold squaredNorm, dot3; cbn; lra |].
  assert (E : block33 (ComputeRotation (Vec3 0 2 0) PI) =
              Mat3 (Vec3 (-1) 0 0) (Vec3 0 7 0) (Vec3 0 0 (-1))).
  { eigen_unfold. rewrite sin_PI, cos_PI. by_coefficients; ring. }
  split; [exact E |].
  rewrite E. intros [H _]. revert H. eigen_unfold.
  intros H. injection H. intros. lra.
Qed.

(** ** [ComputeTranslation] and the model matrix *)

Lemma ComputeTranslation_matrix (o : Vector3f) :
  ComputeTranslation o =
  Mat4 (Vec4 1 0 0 (x3 o)) (Vec4 0 1 0 (y3 o)) (Vec4 0 0 1 (z3 o))
       (Vec4 0 0 0 1).
Proof. reflexivity. Qed.

Lemma ComputeTranslation_apply (o : Vector3f) (x y z w : R) :
  mulv4 (ComputeTranslation o) (Vec4 x y z w) =
  Vec4 (x + w * x3 o) (y + w * y3 o) (z + w * z3 o) w.
Proof. destruct o as [ox oy oz]. eigen_unfold. by_coefficients; ring. Qed.

(** C6: [ComputeTranslation o] is the identity matrix with the last column
    [o.x, o.y, o.z, 1]; it sends the homogeneous origin to
    [o.x, o.y, o.z, 1] and a homogeneous point [p.homogeneous()] to the
    homogeneous point of [p + o], the fourth coordinate staying 1.  On a
    vector with an arbitrary fourth coordinate [w] the offset is added [w]
    times and [w] is kept. *)
Theorem ComputeTranslation_spec (o : Vector3f) :
  ComputeTranslation o = set_col4 Identity4 3 (Vec4 (x3 o) (y3 o) (z3 o) 1) /\
  ComputeTranslation o =
    Mat4 (Vec4 1 0 0 (x3 o)) (Vec4 0 1 0 (y3 o)) (Vec4 0 0 1 (z3 o))
         (Vec4 0 0 0 1) /\
  col4 (ComputeTranslation o) 3 = Vec4 (x3 o) (y3 o) (z3 o) 1 /\
  mulv4 (ComputeTranslation o) (Vec4 0 0 0 1) = Vec4 (x3 o) (y3 o) (z3 o) 1 /\
  (forall p, mulv4 (ComputeTranslation o) (homogeneous p)
             = homogeneous (add3 p o)) /\
  (forall x y z w, mulv4 (ComputeTranslation o) (Vec4 x y z w)
             = Vec4 (x + w * x3 o) (y + w * y3 o) (z + w * z3 o) w).
Proof.
  split; [reflexivity |].
  split; [reflexivity |].
  split; [reflexivity |].
  split; [rewrite ComputeTranslation_apply; by_coefficients; ring |].
  split; [| apply ComputeTranslation_apply].
  intros [x y z]. unfold homogeneous at 1; cbn [x3 y3 z3].
  rewrite ComputeTranslation_apply. destruct o as [ox oy oz].
  unfold homogeneous, add3; cbn. by_coefficients; ring.
Qed.

Lemma model_apply (axis offset p : Vector3f) (theta : R) :
  mulv4 (mul4 (ComputeTranslation offset) (ComputeRotation axis theta))
        (homogeneous p)
  = homogeneous (add3 (mulv3 (block33 (ComputeRotation axis theta)) p) offset).
Proof.
  destruct axis as [ax ay az], offset as [ox oy oz], p as [x y z].
  eigen_unfold. by_coefficients; ring.
Qed.

Lemma rotation_quarter_turn_y :
  block33 (ComputeRotation (Vec3 0 1 0) (PI / 2)) =
  Mat3 (Vec3 0 0 1) (Vec3 0 1 0) (Vec3 (-1) 0 0).
Proof.
  eigen_unfold. rewrite sin_PI2, cos_PI2. by_coefficients; ring.
Qed.

(** C1: the model matrix of a frame is
    [ComputeTranslation(offset) * ComputeRotation(axis, angle)], which
    rotates a point and then translates it; for the axis (0,1,0), the
    angle pi/2 and the offset (0,0,-5) it sends (1,0,0,1) to (0,0,-6,1),
    whereas the product in the other order sends it to (-5,0,-1,1). *)
Theorem RenderScene_model_composition :
  (forall projection angle,
     u_model (RenderScene_matrices projection angle) =
     mul4 (ComputeTranslation (Vec3 0 0 (-5)))
          (ComputeRotation (Vec3 0 1 0) angle)) /\
  (forall axis offset angle p,
     mulv4 (mul4 (ComputeTranslation offset) (ComputeRotation axis angle))
           (homogeneous p)
     = homogeneous
         (add3 (mulv3 (block33 (ComputeRotation axis angle)) p) offset)) /\
  mulv4 (mul4 (ComputeTranslation (Vec3 0 0 (-5)))
              (ComputeRotation (Vec3 0 1 0) (PI / 2)))
        (Vec4 1 0 0 1) = Vec4 0 0 (-6) 1 /\
  (forall projection,
     mulv4 (u_model (RenderScene_matrices projection (PI / 2))) (Vec4 1 0 0 1)
     = Vec4 0 0 (-6) 1) /\
  mulv4 (mul4 (ComputeRotation (Vec3 0 1 0) (PI / 2))
              (ComputeTranslation (Vec3 0 0 (-5))))
        (Vec4 1 0 0 1) = Vec4 (-5) 0 (-1) 1.
Proof.
  assert (Hmodel : forall projection angle,
     u_model (RenderScene_matrices projection angle) =
     mul4 (ComputeTranslation (Vec3 0 0 (-5)))
          (ComputeRotation (Vec3 0 1 0) angle)).
  { intros. unfold RenderScene_matrices; cbn [u_model].
    rewrite normalized_unit_y. reflexivity. }
  assert (Hpoint :
    mulv4 (mul4 (ComputeTranslation (Vec3 0 0 (-5)))
                (ComputeRotation (Vec3 0 1 0) (PI / 2)))
          (Vec4 1 0 0 1) = Vec4 0 0 (-6) 1).
  { change (Vec4 1 0 0 1) with (homogeneous (Vec3 1 0 0)).
    rewrite model_apply, rotation_quarter_turn_y.
    eigen_unfold. by_coefficients; ring. }
  split; [exact Hmodel |].
  split; [intros; apply model_apply |].
  split; [exact Hpoint |].
  split; [intros; rewrite Hmodel; exact Hpoint |].
  eigen_unfold. rewrite sin_PI2, cos_PI2. by_coefficients; ring.
Qed.

(** ** The general projection matrix *)

Lemma ComputeProjectionMatrix_matrix (l r t b n f : R) :
  ComputeProjectionMatrix l r t b n f =
  Mat4 (Vec4 (2 * n / (r - l)) 0 ((r + l) / (r - l)) 0)
       (Vec4 0 (2 * n / (t - b)) ((t + b) / (t - b)) 0)
       (Vec4 0 0 (- (f + n) / (f - n)) (-2 * f * n / (f - n)))
       (Vec4 0 0 (-1) 0).
Proof. reflexivity. Qed.

Lemma projection_clip (l r t b n f x y z : R) :
  mulv4 (ComputeProjectionMatrix l r t b n f) (Vec4 x y z 1) =
  Vec4 (2 * n / (r - l) * x + (r + l) / (r - l) * z)
       (2 * n / (t - b) * y + (t + b) / (t - b) * z)
       (- (f + n) / (f - n) * z + -2 * f * n / (f - n))
       (- z).
Proof.
  rewrite ComputeProjectionMatrix_matrix. eigen_unfold.
  by_coefficients; ring.
Qed.

Lemma ndc_in_range (lo hi n v : R) :
  hi <> lo -> 0 < n -> lo <= v <= hi ->
  -1 <= (2 * n / (hi - lo) * v + (hi + lo) / (hi - lo) * - n) / - - n <= 1.
Proof.
  intros Hne Hn [H1 H2].
  assert (Hd : 0 < hi - lo) by lra.
  replace ((2 * n / (hi - lo) * v + (hi + lo) / (hi - lo) * - n) / - - n)
    with ((2 * v - hi - lo) / (hi - lo)) by (field; lra).
  split.
  - apply Rmult_le_reg_r with (hi - lo); [exact Hd |].
    unfold Rdiv. rewrite Rmult_assoc, Rinv_l by lra. lra.
  - apply Rmult_le_reg_r with (hi - lo); [exact Hd |].
    unfold Rdiv. rewrite Rmult_assoc, Rinv_l by lra. lra.
Qed.

(** C3, with the far plane away from the eye: under [right <> left],
    [top <> bottom], [far <> near], [near > 0] and [far <> 0], the general
    [ComputeProjectionMatrix] sends every view-space point with [x] in
    [[left, right]] and [y] in [[bottom, top]] on the plane [z = -near] to
    normalized device coordinates in [[-1, 1] x [-1, 1]] with depth -1, and
    every point on the plane [z = -far] to depth +1. *)
Theorem ComputeProjectionMatrix_maps_frustum (l r t b n f : R) :
  r <> l -> t <> b -> f <> n -> 0 < n -> f <> 0 ->
  (forall x y, l <= x <= r -> b <= y <= t ->
     exists ndc,
       divides_to (mulv4 (ComputeProjectionMatrix l r t b n f)
                         (Vec4 x y (- n) 1)) ndc /\
       -1 <= x3 ndc <= 1 /\ -1 <= y3 ndc <= 1 /\ z3 ndc = -1) /\
  (forall x y,
     exists ndc,
       divides_to (mulv4 (ComputeProjectionMatrix l r t b n f)
                         (Vec4 x y (- f) 1)) ndc /\
       z3 ndc = 1).
Proof.
  intros Hrl Htb Hfn Hn Hf. split.
  - intros x y Hx Hy. rewrite projection_clip.
    eexists. split; [split; [cbn; lra | reflexivity] |].
    cbn [x3 y3 z3 x4 y4 z4 w4].
    split; [apply ndc_in_range; assumption |].
    split; [apply ndc_in_range; assumption |].
    field. lra.
  - intros x y. rewrite projection_clip.
    eexists. split; [split; [cbn; lra | reflexivity] |].
    cbn [x3 y3 z3 x4 y4 z4 w4]. field. lra.
Qed.

Lemma ComputeProjectionMatrix_maps_frustum_witness :
  exists ndc,
    divides_to (mulv4 (ComputeProjectionMatrix (-1) 1 1 (-1) 1 10)
                      (Vec4 0 0 (- 10) 1)) ndc /\
    z3 ndc = 1.
Proof.
  assert (H1 : 1 <> -1) by lra.
  assert (H2 : 10 <> 1) by lra.
  assert (H3 : 0 < 1) by lra.
  assert (H4 : 10 <> 0) by lra.
  exact (proj2 (ComputeProjectionMatrix_maps_frustum (-1) 1 1 (-1) 1 10
                  H1 H1 H2 H3 H4) 0 0).
Defined.

(** C3 as stated fails at [far = 0], which its preconditions allow: the
    point on the plane [z = -far] is sent to a clip vector with [w = 0],
    so the homogeneous divide is not defined there, and the quotient
    [z / w] as the reals compute it is not 1. *)
Lemma ComputeProjectionMatrix_far_zero_counterexample :
  (1 <> -1 /\ 1 <> -1 /\ 0 <> 1 /\ 0 < 1) /\
  mulv4 (ComputeProjectionMatrix (-1) 1 1 (-1) 1 0) (Vec4 0 0 (- 0) 1)
    = Vec4 0 0 0 0 /\
  (~ exists ndc,
       divides_to (mulv4 (ComputeProjectionMatrix (-1) 1 1 (-1) 1 0)
                         (Vec4 0 0 (- 0) 1)) ndc /\
       z3 ndc = 1) /\
  z4 (mulv4 (ComputeProjectionMatrix (-1) 1 1 (-1) 1 0) (Vec4 0 0 (- 0) 1))
  / w4 (mulv4 (ComputeProjectionMatrix (-1) 1 1 (-1) 1 0) (Vec4 0 0 (- 0) 1))
  <> 1.
Proof.
  assert (E : mulv4 (ComputeProjectionMatrix (-1) 1 1 (-1) 1 0)
                    (Vec4 0 0 (- 0) 1) = Vec4 0 0 0 0).
  { rewrite projection_clip. by_coefficients; field. }
  split; [lra |].
  split; [exact E |].
  rewrite E. cbn [z4 w4]. split.
  - intros [ndc [[Hw _] _]]. apply Hw. reflexivity.
  - unfold Rdiv. rewrite Rmult_0_l. lra.
Qed.

(** ** [ComputeCotangent] and the two forms of the projection *)

Lemma PI_digits : 3.1415926535 < PI < 3.1415926536.
Proof.
  generalize (PI_2_3_7_ineq 6).
  unfold sum_f_R0, tg_alt, PI_2_3_7_tg, Ratan_seq. simpl. lra.
Qed.

Lemma kHalfPi_value : kHalfPi = 13176795 / 8388608.
Proof. unfold kHalfPi, M_PI_float. lra. Qed.

Lemma kHalfPi_excess : 4.3e-8 < kHalfPi - PI / 2 < 4.4e-8.
Proof. rewrite kHalfPi_value. pose proof PI_digits. lra. Qed.


Lemma cos_lb_value (u : R) :
  cos_lb u = 1 - u * u / 2 + u * u * u * u / 24
             - u * u * u * u * u * u / 720.
Proof.
  unfold cos_lb, cos_approx, cos_term, sum_f_R0.
  cbn [Nat.mul Nat.add fact pow].
  replace (INR 1) with 1 by (cbn; lra).
  replace (INR 2) with 2 by (cbn; lra).
  replace (INR 24) with 24 by (rewrite INR_IZR_INZ; reflexivity).
  replace (INR 720) with 720 by (rewrite INR_IZR_INZ; reflexivity).
  field.
Qed.



















(** ** The render loop *)

Lemma PI_bounds : 3.14159 < PI < 3.1416.
Proof.
  generalize (PI_2_3_7_ineq 2).
  unfold sum_f_R0, tg_alt, PI_2_3_7_tg, Ratan_seq. simpl. lra.
Qed.

Lemma loop_angle_eq (time : R) :
  loop_angle time = rotation_speed * time * (PI / 180).
Proof. unfold loop_angle, M_PI. field. Qed.

(** C7: the angle of a frame is [rotation_speed * elapsed * (pi / 180)]
    with [rotation_speed = 50], whatever the state the frame starts from;
    for one elapsed second it is [50 pi / 180], which is 0.8727 to four
    decimals. *)
Theorem loop_angle_spec :
  (forall time s,
     angle (loop_body time s) = rotation_speed * time * (PI / 180)) /\
  (forall time s s', angle (loop_body time s) = angle (loop_body time s')) /\
  rotation_speed = 50 /\
  (forall s, angle (loop_body 1 s) = 50 * PI / 180) /\
  (forall s, Rabs (angle (loop_body 1 s) - 0.8727) < 0.00005).
Proof.
  split; [intros; cbn [loop_body angle]; apply loop_angle_eq |].
  split; [reflexivity |].
  split; [reflexivity |].
  assert (E : forall s, angle (loop_body 1 s) = 50 * PI / 180).
  { intros. cbn [loop_body angle]. rewrite loop_angle_eq.
    unfold rotation_speed. field. }
  split; [exact E |].
  intros s. rewrite E. pose proof PI_bounds as [H1 H2].
  apply Rabs_def1; lra.
Qed.

Lemma loop_body_model (time : R) (s : MainState) :
  model (loop_body time s) = model s.
Proof. reflexivity. Qed.

Lemma main_loop_model (env : list Tick) :
  forall s, model (main_loop env s) = model s.
Proof.
  induction env as [| tk env IH]; intros s; cbn [main_loop].
  - reflexivity.
  - destruct (windowShouldClose tk); [reflexivity |].
    rewrite IH. apply loop_body_model.
Qed.

(** C9: an iteration of the render loop, and any run of the loop, leaves
    the entity as it was: its orientation, position, vertices and indices
    are those before the iteration, while the angle of the frame is kept
    in the loop's own variable. *)
Theorem main_loop_preserves_model :
  (forall time s, model (loop_body time s) = model s) /\
  (forall env s, model (main_loop env s) = model s) /\
  (forall env s,
     GetOrientation (model (main_loop env s)) = GetOrientation (model s) /\
     GetPosition (model (main_loop env s)) = GetPosition (model s) /\
     vertices (model (main_loop env s)) = vertices (model s) /\
     indices (model (main_loop env s)) = indices (model s)) /\
  (forall time s,
     angle (loop_body time s) = loop_angle time /\
     GetOrientation (model (loop_body time s)) = GetOrientation (model s)).
Proof.
  split; [exact loop_body_model |].
  split; [intros; apply main_loop_model |].
  split; [intros; rewrite main_loop_model; repeat split |].
  intros; split; reflexivity.
Qed.

(** ** The projection of the set-up *)

Lemma aspect_ratio_one : aspect_ratio = 1.
Proof. reflexivity. Qed.

Lemma cotangent_eighth_turn_pos :
  0 < ComputeCotangent (0.5 * (45 * PI / 180)).
Proof.
  unfold ComputeCotangent.
  pose proof PI_digits as [H1 H2]. pose proof kHalfPi_excess as [H3 H4].
  apply tan_gt_0; lra.
Qed.

Lemma tan_plus_PI (x : R) : tan (x + PI) = tan x.
Proof.
  unfold tan. rewrite neg_sin, neg_cos.
  unfold Rdiv. rewrite Rinv_opp. ring.
Qed.

Lemma tan_plus_7PI (x : R) : tan (x + 7 * PI) = tan x.
Proof.
  replace (x + 7 * PI)
    with (x + PI + PI + PI + PI + PI + PI + PI) by ring.
  repeat rewrite tan_plus_PI. reflexivity.
Qed.

Lemma cotangent_radians_degrees :
  ComputeCotangent (0.5 * 45) <> ComputeCotangent (0.5 * (45 * PI / 180)).
Proof.
  unfold ComputeCotangent.
  pose proof PI_digits as [H1 H2]. pose proof kHalfPi_excess as [H3 H4].
  rewrite <- (tan_plus_7PI (kHalfPi - 0.5 * 45)).
  intros H. apply tan_inj in H; lra.
Qed.

(** C10: at set-up the aspect ratio is the integer quotient 640 / 480 = 1,
    not 4/3, the field of view is the literal 45, and the projection
    matrix is [ComputeProjectionMatrix(45, 1, 0.1, 10)], which is not the
    matrix of a frustum of 45 degrees and aspect ratio 4:3; its vertical
    scale differs from that of a field of view of 45 degrees. *)
Theorem main_projection_setup :
  Z.quot kWindowWidth kWindowHeight = 1%Z /\
  aspect_ratio = 1 /\
  aspect_ratio <> IZR kWindowWidth / IZR kWindowHeight /\
  field_of_view = 45 /\
  projection_matrix = ComputeProjectionMatrix_fov 45 1 0.1 10 /\
  projection_matrix <>
    ComputeProjectionMatrix_fov (45 * PI / 180) (4 / 3) 0.1 10 /\
  coeff4 projection_matrix 1 1 <>
    coeff4 (ComputeProjectionMatrix_fov (45 * PI / 180) 1 0.1 10) 1 1.
Proof.
  split; [reflexivity |].
  split; [exact aspect_ratio_one |].
  split; [rewrite aspect_ratio_one; unfold kWindowWidth, kWindowHeight; lra |].
  split; [reflexivity |].
  split; [unfold projection_matrix; rewrite aspect_ratio_one; reflexivity |].
  split; [| exact cotangent_radians_degrees].
  unfold projection_matrix. rewrite aspect_ratio_one.
  unfold ComputeProjectionMatrix_fov, field_of_view. cbv zeta.
  pose proof cotangent_eighth_turn_pos as Hpos.
  set (y := ComputeCotangent (0.5 * 45)).
  set (y' := ComputeCotangent (0.5 * (45 * PI / 180))) in *.
  intros H. injection H as Hx Hy.
  rewrite Hy in Hx. lra.
Qed.

(** * Further properties of the program *)

(** ** Translations and rotations as a group of motions *)

(** Translations compose by adding their offsets, commute, and the
    translation by the opposite offset undoes a translation. *)
Theorem ComputeTranslation_compose (a b : Vector3f) :
  mul4 (ComputeTranslation a) (ComputeTranslation b)
    = ComputeTranslation (add3 a b) /\
  mul4 (ComputeTranslation a) (ComputeTranslation b)
    = mul4 (ComputeTranslation b) (ComputeTranslation a) /\
  ComputeTranslation (Vec3 0 0 0) = Identity4 /\
  mul4 (ComputeTranslation (scale3 (-1) a)) (ComputeTranslation a) = Identity4.
Proof.
  destruct a as [ax ay az], b as [bx b_y bz].
  repeat split; eigen_unfold; by_coefficients; ring.
Qed.

Lemma ComputeRotation_form (a : Vector3f) (theta : R) :
  ComputeRotation a theta
  = axis_angle_form (cos theta) (1 - cos theta) (sin theta) a.
Proof.
  destruct a as [x y z]. unfold axis_angle_form. eigen_unfold.
  by_coefficients; ring.
Qed.

Lemma axis_angle_form_mul (c1 q1 s1 c2 q2 s2 : R) (a : Vector3f) :
  mul4 (axis_angle_form c1 q1 s1 a) (axis_angle_form c2 q2 s2 a)
  = axis_angle_form
      (c1 * c2 - s1 * s2 * squaredNorm a)
      (c1 * q2 + q1 * c2 + q1 * q2 * squaredNorm a + s1 * s2)
      (c1 * s2 + s1 * c2) a.
Proof.
  destruct a as [x y z]. unfold axis_angle_form, squaredNorm. eigen_unfold.
  by_coefficients; ring.
Qed.

(** Two rotations about the same unit axis compose to the rotation by
    the sum of the angles; the rotation by the opposite angle is the
    inverse. *)
Theorem ComputeRotation_compose (a : Vector3f) (theta phi : R) :
  norm a = 1 ->
  mul4 (ComputeRotation a theta) (ComputeRotation a phi)
    = ComputeRotation a (theta + phi) /\
  mul4 (ComputeRotation a theta) (ComputeRotation a (- theta)) = Identity4.
Proof.
  intros Hn. apply norm_unit_squared in Hn.
  assert (Hsum : forall t p,
    mul4 (ComputeRotation a t) (ComputeRotation a p) = ComputeRotation a (t + p)).
  { intros t p. rewrite !ComputeRotation_form, axis_angle_form_mul, Hn.
    rewrite sin_plus, cos_plus. destruct a as [x y z].
    unfold axis_angle_form. cbn [x3 y3 z3]. by_coefficients; ring. }
  split; [apply Hsum |].
  rewrite Hsum. replace (theta + - theta) with 0 by ring.
  apply ComputeRotation_zero_angle.
Qed.

Lemma ComputeRotation_compose_witness :
  mul4 (ComputeRotation (Vec3 0 1 0) 1) (ComputeRotation (Vec3 0 1 0) 2)
  = ComputeRotation (Vec3 0 1 0) (1 + 2).
Proof.
  assert (H : norm (Vec3 0 1 0) = 1).
  { unfold norm, squaredNorm, dot3; cbn.
    replace (0 * 0 + 1 * 1 + 0 * 0) with 1 by ring. apply sqrt_1. }
  exact (proj1 (ComputeRotation_compose (Vec3 0 1 0) 1 2 H)).
Defined.

Lemma sin_plus_2PI (x : R) : sin (x + 2 * PI) = sin x.
Proof. rewrite sin_plus, sin_2PI, cos_2PI. ring. Qed.

Lemma cos_plus_2PI (x : R) : cos (x + 2 * PI) = cos x.
Proof. rewrite cos_plus, sin_2PI, cos_2PI. ring. Qed.

Lemma ComputeRotation_full_turn (a : Vector3f) (theta : R) :
  ComputeRotation a (theta + 2 * PI) = ComputeRotation a theta.
Proof.
  rewrite !ComputeRotation_form, sin_plus_2PI, cos_plus_2PI. reflexivity.
Qed.

(** For every axis, unit or not: the rotation by the opposite angle has
    the transposed 3x3 block, a full turn more gives the same matrix, and
    reversing both the axis and the angle gives the same matrix. *)
Theorem ComputeRotation_symmetries (a : Vector3f) (theta : R) :
  block33 (ComputeRotation a (- theta))
    = transpose3 (block33 (ComputeRotation a theta)) /\
  ComputeRotation a (theta + 2 * PI) = ComputeRotation a theta /\
  ComputeRotation (scale3 (-1) a) (- theta) = ComputeRotation a theta.
Proof.
  split; [| split; [apply ComputeRotation_full_turn |]]; destruct a as [x y z].
  - eigen_unfold. rewrite sin_neg, cos_neg. by_coefficients; ring.
  - rewrite !ComputeRotation_form, sin_neg, cos_neg.
    unfold axis_angle_form, scale3. cbn [x3 y3 z3]. by_coefficients; ring.
Qed.

Lemma gram_quadratic (B : Matrix3f) (p q : Vector3f) :
  dot3 (mulv3 B p) (mulv3 B q) = dot3 p (mulv3 (mul3 (transpose3 B) B) q).
Proof.
  destruct B as [[a b c] [d e f] [g h i]], p as [x y z], q as [u v w].
  eigen_unfold. ring.
Qed.

Lemma mulv3_identity (p : Vector3f) : mulv3 Identity3 p = p.
Proof. destruct p as [x y z]. eigen_unfold. by_coefficients; ring. Qed.

(** A rotation about a unit axis keeps scalar products, hence lengths
    and angles between vectors. *)
Theorem ComputeRotation_isometry (a p q : Vector3f) (theta : R) :
  norm a = 1 ->
  dot3 (mulv3 (block33 (ComputeRotation a theta)) p)
       (mulv3 (block33 (ComputeRotation a theta)) q) = dot3 p q /\
  norm (mulv3 (block33 (ComputeRotation a theta)) p) = norm p.
Proof.
  intros Hn. apply norm_unit_squared in Hn.
  destruct (rotation_orthogonal_unit a theta Hn) as [Hl _].
  assert (Hdot : forall u v,
    dot3 (mulv3 (block33 (ComputeRotation a theta)) u)
         (mulv3 (block33 (ComputeRotation a theta)) v) = dot3 u v).
  { intros u v. rewrite gram_quadratic, Hl, mulv3_identity. reflexivity. }
  split; [apply Hdot |].
  unfold norm, squaredNorm. rewrite Hdot. reflexivity.
Qed.

Lemma ComputeRotation_isometry_witness :
  norm (mulv3 (block33 (ComputeRotation (Vec3 0 1 0) 1)) (Vec3 3 4 5))
  = norm (Vec3 3 4 5).
Proof.
  assert (H : norm (Vec3 0 1 0) = 1).
  { unfold norm, squaredNorm, dot3; cbn.
    replace (0 * 0 + 1 * 1 + 0 * 0) with 1 by ring. apply sqrt_1. }
  exact (proj2 (ComputeRotation_isometry (Vec3 0 1 0) (Vec3 3 4 5)
                  (Vec3 3 4 5) 1 H)).
Defined.

(** ** The model matrix over time *)

Lemma model_action (projection : Matrix4f) (angle x y z : R) :
  mulv4 (u_model (RenderScene_matrices projection angle)) (Vec4 x y z 1)
    = Vec4 (x * cos angle + z * sin angle) y
           (- x * sin angle + z * cos angle - 5) 1.
Proof.
  unfold RenderScene_matrices; cbn [u_model].
  rewrite normalized_unit_y. eigen_unfold. by_coefficients; ring.
Qed.

(** For every angle the model matrix of a frame turns a point about the
    vertical axis and then moves it 5 units away from the viewer: the
    height [y] is kept and the object's origin always lands on
    (0, 0, -5).  The view matrix is the identity and the projection is
    passed on as received. *)
Theorem RenderScene_model_action (projection : Matrix4f) (angle x y z : R) :
  mulv4 (u_model (RenderScene_matrices projection angle)) (Vec4 x y z 1)
    = Vec4 (x * cos angle + z * sin angle) y
           (- x * sin angle + z * cos angle - 5) 1 /\
  mulv4 (u_model (RenderScene_matrices projection angle)) (Vec4 0 0 0 1)
    = Vec4 0 0 (-5) 1 /\
  u_view (RenderScene_matrices projection angle) = Identity4 /\
  u_projection (RenderScene_matrices projection angle) = projection.
Proof.
  split; [apply model_action |].
  split; [rewrite model_action; by_coefficients; ring |].
  split; reflexivity.
Qed.

(** Whatever the roundings of the conversions are, as long as they keep
    the order of numbers (as rounding to nearest does), the angle stored
    by the loop body never decreases when the clock advances; without
    rounding it is the angle [loop_angle]. *)
Theorem loop_angle_rounded_monotone (to_float to_double : R -> R)
    (t1 t2 : R) :
  (forall x y, x <= y -> to_float x <= to_float y) ->
  (forall x y, x <= y -> to_double x <= to_double y) ->
  t1 <= t2 ->
  loop_angle_rounded to_float to_double t1
    <= loop_angle_rounded to_float to_double t2 /\
  loop_angle_rounded (fun x => x) (fun x => x) t1 = loop_angle t1.
Proof.
  intros Hf Hd Ht. pose proof PI_RGT_0 as Hpi. split; [| reflexivity].
  unfold loop_angle_rounded, rotation_speed, M_PI.
  apply Hf, Hd. apply Rmult_le_compat_r; [lra |].
  apply Hd. apply Rmult_le_compat_r; [lra |].
  apply Hf. apply Rmult_le_compat_l; [lra |].
  apply Hf, Ht.
Qed.

Lemma loop_angle_rounded_monotone_witness :
  loop_angle_rounded (fun x => x) (fun x => x) 1
  <= loop_angle_rounded (fun x => x) (fun x => x) 2.
Proof.
  assert (Hid : forall x y : R, x <= y -> (fun z : R => z) x <= (fun z : R => z) y)
    by (intros x y H; exact H).
  assert (H12 : 1 <= 2) by lra.
  exact (proj1 (loop_angle_rounded_monotone (fun x => x) (fun x => x) 1 2
                  Hid Hid H12)).
Defined.

(** ** Depth and the field of view *)

Lemma fov_clip (fov aspect n f x y z : R) :
  mulv4 (ComputeProjectionMatrix_fov fov aspect n f) (Vec4 x y z 1) =
  Vec4 (ComputeCotangent (0.5 * fov) / aspect * x)
       (ComputeCotangent (0.5 * fov) * y)
       (- (n + f) / (f - n) * z + -2 * n * f / (f - n))
       (- z).
Proof.
  unfold ComputeProjectionMatrix_fov. cbv zeta.
  unfold mulv4, dot4; cbn [m4r0 m4r1 m4r2 m4r3 x4 y4 z4 w4].
  by_coefficients; ring.
Qed.

Lemma depth_value (n f z : R) :
  n < f -> z < 0 ->
  (- (f + n) / (f - n) * z + -2 * f * n / (f - n)) / - z
  = (f + n) / (f - n) - 2 * f * n / (f - n) * / - z.
Proof. intros. field. lra. Qed.

Lemma depth_range (n f z : R) :
  0 < n -> n < f -> - f <= z <= - n ->
  -1 <= (- (f + n) / (f - n) * z + -2 * f * n / (f - n)) / - z <= 1.
Proof.
  intros Hn Hf [Hz1 Hz2].
  assert (Hw : 0 < - z) by lra.
  assert (Hd : 0 < (f - n) * - z) by (apply Rmult_lt_0_compat; lra).
  replace ((- (f + n) / (f - n) * z + -2 * f * n / (f - n)) / - z)
    with (((f + n) * - z - 2 * f * n) / ((f - n) * - z)) by (field; lra).
  split.
  - apply Rmult_le_reg_r with ((f - n) * - z); [exact Hd |].
    unfold Rdiv. rewrite Rmult_assoc, Rinv_l by lra. nra.
  - apply Rmult_le_reg_r with ((f - n) * - z); [exact Hd |].
    unfold Rdiv. rewrite Rmult_assoc, Rinv_l by lra. nra.
Qed.

Lemma depth_monotone (n f z1 z2 : R) :
  0 < n -> n < f -> z2 < z1 -> z1 < 0 ->
  (- (f + n) / (f - n) * z1 + -2 * f * n / (f - n)) / - z1
  < (- (f + n) / (f - n) * z2 + -2 * f * n / (f - n)) / - z2.
Proof.
  intros Hn Hf H21 H1.
  rewrite !depth_value by lra.
  assert (Hk : 0 < 2 * f * n / (f - n)).
  { apply Rdiv_lt_0_compat; [| lra].
    apply Rmult_lt_0_compat; lra. }
  assert (Hi : / - z2 < / - z1) by (apply Rinv_lt_contravar; nra).
  nra.
Qed.

(** With [0 < near < far], both forms of [ComputeProjectionMatrix] give
    every point between the two planes a clip [w] equal to its distance
    [-z] and a depth after the divide in [[-1, 1]]; of two points in front
    of the eye the farther one gets the larger depth. *)
Theorem ComputeProjectionMatrix_depth (l r t b fov aspect n f : R) :
  0 < n -> n < f ->
  (forall x y z, - f <= z <= - n ->
     exists ndc,
       divides_to (mulv4 (ComputeProjectionMatrix l r t b n f)
                         (Vec4 x y z 1)) ndc /\
       w4 (mulv4 (ComputeProjectionMatrix l r t b n f) (Vec4 x y z 1)) = - z /\
       -1 <= z3 ndc <= 1) /\
  (forall x y z, - f <= z <= - n ->
     exists ndc,
       divides_to (mulv4 (ComputeProjectionMatrix_fov fov aspect n f)
                         (Vec4 x y z 1)) ndc /\
       w4 (mulv4 (ComputeProjectionMatrix_fov fov aspect n f)
                 (Vec4 x y z 1)) = - z /\
       -1 <= z3 ndc <= 1) /\
  (forall x1 y1 z1 x2 y2 z2, z2 < z1 -> z1 < 0 ->
     z4 (mulv4 (ComputeProjectionMatrix l r t b n f) (Vec4 x1 y1 z1 1))
     / w4 (mulv4 (ComputeProjectionMatrix l r t b n f) (Vec4 x1 y1 z1 1))
     < z4 (mulv4 (ComputeProjectionMatrix l r t b n f) (Vec4 x2 y2 z2 1))
       / w4 (mulv4 (ComputeProjectionMatrix l r t b n f) (Vec4 x2 y2 z2 1))).
Proof.
  intros Hn Hf. split; [| split].
  - intros x y z Hz. rewrite projection_clip.
    eexists. split; [split; [cbn; lra | reflexivity] |].
    cbn [z3 w4]. split; [reflexivity |]. apply depth_range; assumption.
  - intros x y z Hz. rewrite fov_clip.
    eexists. split; [split; [cbn; lra | reflexivity] |].
    cbn [z3 w4]. split; [reflexivity |].
    replace (- (n + f) / (f - n) * z + -2 * n * f / (f - n))
      with (- (f + n) / (f - n) * z + -2 * f * n / (f - n))
      by (field; lra).
    apply depth_range; assumption.
  - intros x1 y1 z1 x2 y2 z2 H21 H1. rewrite !projection_clip.
    cbn [z4 w4]. apply depth_monotone; assumption.
Qed.

Lemma ComputeProjectionMatrix_depth_witness :
  exists ndc,
    divides_to (mulv4 (ComputeProjectionMatrix (-1) 1 1 (-1) 1 10)
                      (Vec4 0 0 (-5) 1)) ndc /\
    w4 (mulv4 (ComputeProjectionMatrix (-1) 1 1 (-1) 1 10) (Vec4 0 0 (-5) 1))
      = - (-5) /\
    -1 <= z3 ndc <= 1.
Proof.
  assert (H1 : 0 < 1) by lra.
  assert (H2 : 1 < 10) by lra.
  assert (H3 : - 10 <= -5 <= - 1) by lra.
  exact (proj1 (ComputeProjectionMatrix_depth (-1) 1 1 (-1) 1 1 1 10 H1 H2)
           0 0 (-5) H3).
Defined.

(** ** The entity and its buffers *)

Lemma call_setters_geometry (calls : list SetterCall) :
  forall m, vertices (call_setters calls m) = vertices m /\
            indices (call_setters calls m) = indices m.
Proof.
  induction calls as [| c calls IH]; intros m; cbn [call_setters fold_left].
  - split; reflexivity.
  - destruct (IH (call_setter m c)) as [Hv Hi]. unfold call_setters in *.
    rewrite Hv, Hi. destruct c; split; reflexivity.
Qed.

(** Whatever setters are called on an entity, in whatever order, its
    vertices and indices stay those it was constructed with, and so do
    the byte counts of its buffers; a setter called last decides the
    field it sets. *)
Theorem Model_setters_keep_geometry (calls : list SetterCall) (m : Model)
    (v : Vector3f) :
  vertices (call_setters calls m) = vertices m /\
  indices (call_setters calls m) = indices m /\
  vertices_size_in_bytes (call_setters calls m) = vertices_size_in_bytes m /\
  indices_size_in_bytes (call_setters calls m) = indices_size_in_bytes m /\
  GetOrientation (call_setters (calls ++ [CallSetOrientation v]) m) = v /\
  GetPosition (call_setters (calls ++ [CallSetOrientation v]) m)
    = GetPosition (call_setters calls m) /\
  GetPosition (call_setters (calls ++ [CallSetPosition v]) m) = v /\
  GetOrientation (call_setters (calls ++ [CallSetPosition v]) m)
    = GetOrientation (call_setters calls m).
Proof.
  destruct (call_setters_geometry calls m) as [Hv Hi].
  unfold vertices_size_in_bytes, indices_size_in_bytes.
  rewrite Hv, Hi. unfold call_setters. rewrite !fold_left_app.
  repeat split; reflexivity.
Qed.

Lemma int_cast_small (z : Z) :
  (0 <= z < 2 ^ 31)%Z -> int_cast z = z.
Proof.
  intros Hz. unfold int_cast.
  rewrite Z.mod_small by lia. lia.
Qed.

Lemma rectangular_data_length (n : nat) (m : MatrixXf) :
  rectangular n m -> List.length (data m) = (n * List.length m)%nat.
Proof.
  unfold rectangular, data. induction 1 as [| c m Hc _ IH]; cbn.
  - lia.
  - rewrite length_app, IH, Hc. lia.
Qed.

Lemma rectangular_rows_cols (n : nat) (m : MatrixXf) :
  rectangular n m ->
  (rows m * cols m = Z.of_nat (List.length (data m)))%Z.
Proof.
  intros H. rewrite (rectangular_data_length n m H).
  unfold rows, cols. destruct H as [| c m Hc Hm]; cbn [List.length].
  - lia.
  - rewrite Hc. lia.
Qed.

(** When the byte counts fit in an [int], the buffers are filled with 4
    bytes for each index and for each coefficient of the vertex table, and
    the draw of 6 indices stays inside the element buffer exactly when the
    entity has at least 6 indices; an entity built by the constructor
    without indices has an empty element buffer, which the draw
    overruns. *)
Theorem buffer_sizes (n : nat) (model : Model) :
  rectangular n (vertices model) ->
  (4 * Z.of_nat (List.length (data (vertices model))) < 2 ^ 31)%Z ->
  (4 * Z.of_nat (List.length (indices model)) < 2 ^ 31)%Z ->
  vertices_size_in_bytes model
    = (4 * Z.of_nat (List.length (data (vertices model))))%Z /\
  indices_size_in_bytes model
    = (4 * Z.of_nat (List.length (indices model)))%Z /\
  (draw_in_bounds model <-> (6 <= List.length (indices model))%nat) /\
  (forall o p v, indices_size_in_bytes (Model_3 o p v) = 0%Z /\
                 ~ draw_in_bounds (Model_3 o p v)).
Proof.
  intros Hrect Hv Hi.
  assert (Ev : vertices_size_in_bytes model
               = (4 * Z.of_nat (List.length (data (vertices model))))%Z).
  { unfold vertices_size_in_bytes, sizeof_GLfloat.
    rewrite (rectangular_rows_cols n _ Hrect).
    rewrite int_cast_small by lia. lia. }
  assert (Ei : indices_size_in_bytes model
               = (4 * Z.of_nat (List.length (indices model)))%Z).
  { unfold indices_size_in_bytes, sizeof_GLuint.
    rewrite int_cast_small by lia. lia. }
  split; [exact Ev |]. split; [exact Ei |]. split.
  - unfold draw_in_bounds, draw_index_count, sizeof_GLuint. rewrite Ei. lia.
  - intros o p v. split; [reflexivity |].
    unfold draw_in_bounds, draw_index_count, sizeof_GLuint.
    change (indices_size_in_bytes (Model_3 o p v)) with 0%Z. lia.
Qed.

Lemma buffer_sizes_witness :
  vertices_size_in_bytes main_model = 128%Z /\
  indices_size_in_bytes main_model = 24%Z /\
  draw_in_bounds main_model.
Proof.
  assert (H1 : rectangular 8 (vertices main_model)).
  { repeat constructor. }
  assert (H2 : (4 * Z.of_nat (List.length (data (vertices main_model)))
                < 2 ^ 31)%Z) by (cbn; lia).
  assert (H3 : (4 * Z.of_nat (List.length (indices main_model)) < 2 ^ 31)%Z)
    by (cbn; lia).
  destruct (buffer_sizes 8 main_model H1 H2 H3) as [Ev [Ei [Hd _]]].
  split; [exact Ev |]. split; [exact Ei |].
  apply Hd. cbn. lia.
Defined.

Lemma coeffX_data (n : nat) (m : MatrixXf) :
  rectangular n m ->
  forall k i, (i < n)%nat ->
    nth_error (data m) (n * k + i) = coeffX m i k.
Proof.
  unfold rectangular, data, coeffX.
  induction 1 as [| c m Hc _ IH]; intros k i Hi.
  - cbn. destruct (n * k + i)%nat, k; reflexivity.
  - cbn [List.concat]. destruct k as [| k].
    + rewrite Nat.mul_0_r, Nat.add_0_l. cbn [nth_error].
      apply nth_error_app1. lia.
    + cbn [nth_error]. rewrite nth_error_app2 by lia.
      replace (n * S k + i - List.length c)%nat with (n * k + i)%nat by lia.
      apply IH. exact Hi.
Qed.

(** The three attribute pointers split each 32-byte stride into position
    (bytes 0-11), colour (12-23) and texture coordinate (24-31) without
    gap or overlap, and on the buffer of a vertex table with 8 rows
    component [j] of the attribute that starts at row [first] reads, for
    vertex [k], the coefficient [(first + j, k)] of the table: rows 0-2,
    3-5 and 6-7 of column [k]. *)
Theorem vertex_attributes_read_columns (m : MatrixXf) (a : VertexAttrib)
    (k j : nat) :
  rectangular 8 m ->
  In a SetVertexBufferObject_attribs ->
  (Z.of_nat j < attrib_size a)%Z ->
  fetch (data m) a k j
    = coeffX m (Z.to_nat (attrib_offset a / sizeof_GLfloat) + j) k /\
  (attrib_offset a + attrib_size a * sizeof_GLfloat <= attrib_stride a)%Z /\
  map (fun b => (attrib_offset b, attrib_offset b + attrib_size b * 4)%Z)
      SetVertexBufferObject_attribs
    = [(0, 12); (12, 24); (24, kStride)]%Z.
Proof.
  intros Hrect Ha Hj.
  assert (Hcases : exists first : nat,
            (first + j < 8)%nat /\
            attrib_offset a = (Z.of_nat first * 4)%Z /\
            attrib_stride a = 32%Z /\
            (attrib_offset a + attrib_size a * sizeof_GLfloat
             <= attrib_stride a)%Z).
  { cbn in Ha. destruct Ha as [<- | [<- | [<- | []]]]; cbn in Hj |- *;
      [exists 0%nat | exists 3%nat | exists 6%nat]; cbn; repeat split; lia. }
  destruct Hcases as [first [Hlt [Ho [Hs Hfit]]]].
  split; [| split; [exact Hfit | reflexivity]].
  unfold fetch, sizeof_GLfloat. rewrite Ho, Hs.
  replace ((Z.of_nat first * 4 + Z.of_nat k * 32 + Z.of_nat j * 4) / 4)%Z
    with (Z.of_nat (8 * k + (first + j))).
  2:{ apply Z.div_unique_exact; lia. }
  rewrite Z.div_mul by lia. rewrite !Nat2Z.id.
  apply coeffX_data; assumption.
Qed.

Lemma vertex_attributes_read_columns_witness :
  fetch (data main_vertices) (mkVertexAttrib 2 2 kStride (6 * sizeof_GLfloat))
        3 1
  = Some 1.
Proof.
  assert (H1 : rectangular 8 main_vertices) by (repeat constructor).
  assert (H2 : In (mkVertexAttrib 2 2 kStride (6 * sizeof_GLfloat))
                  SetVertexBufferObject_attribs)
    by (cbn; right; right; left; reflexivity).
  assert (H3 : (Z.of_nat 1
                < attrib_size (mkVertexAttrib 2 2 kStride (6 * sizeof_GLfloat)))%Z)
    by (cbn; lia).
  exact (proj1 (vertex_attributes_read_columns main_vertices _ 3 1 H1 H2 H3)).
Defined.

(** ** The calls of a frame *)

(** Whatever was bound before, [RenderScene] issues exactly one draw, of
    6 indices, and that draw sees the given texture and vertex array bound
    and the three matrices of the frame as the latest values of "model",
    "view" and "projection"; on return no texture and no vertex array is
    left bound. *)
Theorem RenderScene_draw_state (st : GLState) (vao tex : GLuint)
    (projection : Matrix4f) (angle : R) :
  let st' := gl_run (RenderScene vao projection angle tex) st in
  bound_texture st' = 0%Z /\
  bound_vertex_array st' = 0%Z /\
  exists d,
    drawn st' = drawn st ++ [d] /\
    draw_count d = 6%Z /\
    draw_texture d = tex /\
    draw_vertex_array d = vao /\
    uniform_value "model" (draw_uniforms d)
      = Some (u_model (RenderScene_matrices projection angle)) /\
    uniform_value "view" (draw_uniforms d) = Some Identity4 /\
    uniform_value "projection" (draw_uniforms d) = Some projection.
Proof.
  cbv zeta. split; [reflexivity |]. split; [reflexivity |].
  eexists. split; [reflexivity |]. repeat split; reflexivity.
Qed.

Lemma count_draws_app (l1 l2 : list GLCall) :
  count_draws (l1 ++ l2) = (count_draws l1 + count_draws l2)%nat.
Proof. unfold count_draws. rewrite filter_app, length_app. reflexivity. Qed.

Lemma loop_body_log (time : R) (s : MainState) :
  count_draws (gl_log (loop_body time s)) = S (count_draws (gl_log s)) /\
  List.length (gl_log (loop_body time s)) = (List.length (gl_log s) + 14)%nat.
Proof.
  cbn [loop_body gl_log]. split.
  - rewrite !count_draws_app. cbn. lia.
  - rewrite !length_app. cbn. lia.
Qed.

Lemma main_loop_draws (env : list Tick) :
  forall s,
    count_draws (gl_log (main_loop env s))
      = (count_draws (gl_log s) + frames_before_close env)%nat.
Proof.
  induction env as [| tk env IH]; intros s;
    cbn [main_loop frames_before_close]; [lia |].
  destruct (windowShouldClose tk); [lia |].
  rewrite IH, (proj1 (loop_body_log (glfwGetTime tk) s)). lia.
Qed.

(** A run of the loop renders one frame for each observation before the
    first close request and none after it: the log gains one draw and 14
    calls per such observation. *)
Theorem main_loop_frames (env : list Tick) (s : MainState) :
  count_draws (gl_log (main_loop env s))
    = (count_draws (gl_log s) + frames_before_close env)%nat /\
  List.length (gl_log (main_loop env s))
    = (List.length (gl_log s) + 14 * frames_before_close env)%nat.
Proof.
  split; [apply main_loop_draws |].
  revert s. induction env as [| tk env IH]; intros s;
    cbn [main_loop frames_before_close]; [lia |].
  destruct (windowShouldClose tk); [lia |].
  rewrite IH, (proj2 (loop_body_log (glfwGetTime tk) s)). lia.
Qed.

Lemma main_loop_close_cut (pre : list Tick) :
  forall tk post s,
    windowShouldClose tk = true ->
    main_loop (pre ++ tk :: post) s = main_loop pre s.
Proof.
  induction pre as [| p pre IH]; intros tk post s Hc; cbn [app main_loop].
  - rewrite Hc. reflexivity.
  - destruct (windowShouldClose p); [reflexivity |]. apply IH, Hc.
Qed.

Lemma main_loop_last_angle (pre : list Tick) :
  forall tk s,
    frames_before_close (pre ++ [tk]) = List.length (pre ++ [tk]) ->
    angle (main_loop (pre ++ [tk]) s) = loop_angle (glfwGetTime tk).
Proof.
  induction pre as [| p pre IH]; intros tk s H;
    cbn [app main_loop frames_before_close List.length] in *.
  - destruct (windowShouldClose tk); [discriminate | reflexivity].
  - destruct (windowShouldClose p); [discriminate |].
    apply IH. lia.
Qed.

(** The loop is left at the first close request, so nothing observed
    after it matters; and while no close is requested, the angle after
    the run is the one computed from the last clock reading alone. *)
Theorem main_loop_stops_at_close (pre post : list Tick) (tk : Tick)
    (s : MainState) :
  windowShouldClose tk = true ->
  main_loop (pre ++ tk :: post) s = main_loop pre s /\
  main_loop (tk :: post) s = s /\
  (forall last,
     frames_before_close (pre ++ [last]) = List.length (pre ++ [last]) ->
     angle (main_loop (pre ++ [last] ++ tk :: post) s)
       = loop_angle (glfwGetTime last)).
Proof.
  intros Hc. split; [apply main_loop_close_cut, Hc |].
  split; [cbn [main_loop]; rewrite Hc; reflexivity |].
  intros last Hrun. rewrite app_assoc, main_loop_close_cut by exact Hc.
  apply main_loop_last_angle, Hrun.
Qed.

Lemma main_loop_stops_at_close_witness :
  main_loop ([mkTick false 1] ++ mkTick true 2 :: [mkTick false 3])
            (main_init 1 1)
  = main_loop [mkTick false 1] (main_init 1 1).
Proof.
  exact (proj1 (main_loop_stops_at_close [mkTick false 1] [mkTick false 3]
                  (mkTick true 2) (main_init 1 1) eq_refl)).
Defined.

(** ** Key events *)

(** The key callback only ever raises the close flag: after any sequence
    of key events the window is to close exactly when it already was or
    one of the events was a press of Escape; releases and repeats of
    Escape and all other keys leave the flag alone. *)
Theorem KeyCallback_close_flag (events : list KeyEvent) (flag : bool) :
  deliver_keys events flag
  = orb flag
        (existsb (fun e => andb (key e =? GLFW_KEY_ESCAPE)%Z
                                (action e =? GLFW_PRESS)%Z) events).
Proof.
  revert flag. unfold deliver_keys.
  induction events as [| e events IH]; intros flag; cbn [fold_left existsb].
  - destruct flag; reflexivity.
  - rewrite IH. unfold KeyCallback.
    destruct (andb (key e =? GLFW_KEY_ESCAPE)%Z (action e =? GLFW_PRESS)%Z);
      destruct flag; reflexivity.
Qed.

(** ** [main] as a whole *)

Lemma frame_calls_app (l1 l2 : list Call) :
  frame_calls (l1 ++ l2) = frame_calls l1 ++ frame_calls l2.
Proof. unfold frame_calls. apply flat_map_app. Qed.

Lemma frame_calls_map (l : list GLCall) : frame_calls (map Frame l) = l.
Proof.
  unfold frame_calls. induction l as [| c l IH]; cbn; [| rewrite IH];
    reflexivity.
Qed.

Lemma count_terminate_app (l1 l2 : list Call) :
  count_terminate (l1 ++ l2) = (count_terminate l1 + count_terminate l2)%nat.
Proof. unfold count_terminate. rewrite filter_app, length_app. reflexivity. Qed.

Lemma count_terminate_frames (l : list GLCall) :
  count_terminate (map Frame l) = 0%nat.
Proof.
  unfold count_terminate. induction l as [| c l IH]; cbn; [reflexivity | exact IH].
Qed.

Lemma setup_calls_plain (e : Environment) :
  frame_calls (setup_calls e) = [] /\
  count_terminate (setup_calls e) = 0%nat /\
  (forall id, ~ In (glDeleteBuffers id) (setup_calls e)).
Proof.
  unfold setup_calls. destruct (Create_ok e); cbn [app].
  - split; [reflexivity |]. split; [reflexivity |].
    intros id Hin. cbn [In] in Hin.
    repeat (destruct Hin as [Hin | Hin]; [discriminate |]). exact Hin.
  - split; [reflexivity |]. split; [reflexivity |].
    intros id Hin. cbn [In] in Hin.
    repeat (destruct Hin as [Hin | Hin]; [discriminate |]). exact Hin.
Qed.

Lemma main_run (e : Environment) :
  setup_succeeds e = true ->
  close_requested (ticks e) = true ->
  main e = Some (0%Z, finished_calls e).
Proof.
  unfold setup_succeeds, main, finished_calls, setup_calls.
  intros H Hc. rewrite Hc.
  generalize (map Frame
          (gl_log (main_loop (ticks e)
                     (main_init (new_vertex_array_object_id e)
                                (new_texture_id e))))).
  intros frames.
  destruct (glfwInit_ok e); [| discriminate].
  destruct (window_created e); [| discriminate].
  destruct (glewInit_ok e); [| discriminate].
  destruct (shader_program_id e =? 0)%Z; [discriminate |].
  cbn [negb]. destruct (Create_ok e); cbn [negb];
    rewrite <- !app_assoc; cbn [app]; reflexivity.
Qed.

Lemma main_waiting (e : Environment) :
  setup_succeeds e = true ->
  close_requested (ticks e) = false ->
  main e = None.
Proof.
  unfold setup_succeeds, main. intros H Hc. rewrite Hc.
  destruct (glfwInit_ok e); [| discriminate].
  destruct (window_created e); [| discriminate].
  destruct (glewInit_ok e); [| discriminate].
  destruct (shader_program_id e =? 0)%Z; [discriminate |].
  reflexivity.
Qed.

Lemma main_failed (e : Environment) :
  setup_succeeds e = false ->
  exists log,
    main e = Some ((-1)%Z, log) /\
    frame_calls log = [] /\
    count_terminate log
      = (if (glfwInit_ok e
             && (negb (window_created e) || negb (glewInit_ok e)))%bool
         then 1%nat else 0%nat).
Proof.
  unfold setup_succeeds, main.
  destruct (glfwInit_ok e); cbn [negb andb orb];
    [| intros _; eexists; repeat split; reflexivity].
  destruct (window_created e); cbn [negb andb orb];
    [| intros _; eexists; repeat split; reflexivity].
  destruct (glewInit_ok e); cbn [negb andb orb];
    [| intros _; eexists; repeat split; reflexivity].
  destruct (shader_program_id e =? 0)%Z; cbn [negb andb orb];
    [| discriminate].
  intros _. destruct (Create_ok e); cbn [negb];
    eexists; repeat split; reflexivity.
Qed.

(** [main] returns only after a failed set-up or a close request.  When
    the set-up fails it returns -1 without rendering a frame; when the
    set-up succeeds and a close is requested it returns 0, having rendered
    one frame for each loop test passed before that request; when the
    set-up succeeds and no close is requested it does not return.  The
    set-up succeeds exactly when GLFW and GLEW initialize, the window
    exists and the shader program has a non-zero id; what [Create]
    reported does not enter. *)
Theorem main_exit_code (e : Environment) :
  (setup_succeeds e = false ->
   exists log, main e = Some ((-1)%Z, log) /\ frame_calls log = []) /\
  (setup_succeeds e = true -> close_requested (ticks e) = true ->
   exists log,
     main e = Some (0%Z, log) /\
     count_draws (frame_calls log) = frames_before_close (ticks e)) /\
  (setup_succeeds e = true -> close_requested (ticks e) = false ->
   main e = None).
Proof.
  split; [| split].
  - intros Hs. destruct (main_failed e Hs) as [log [Hm [Hf _]]].
    exists log. split; assumption.
  - intros Hs Hc. eexists. split; [exact (main_run e Hs Hc) |].
    destruct (setup_calls_plain e) as [Hf _]. unfold finished_calls.
    rewrite !frame_calls_app, Hf, frame_calls_map.
    cbn [app]. rewrite count_draws_app, main_loop_draws.
    unfold main_init; cbn [gl_log].
    change (count_draws [StdoutMatrix "" projection_matrix]) with 0%nat.
    change (count_draws (frame_calls
              [glDeleteVertexArrays (new_vertex_array_object_id e);
               glDeleteBuffers (new_vertex_buffer_object_id e);
               glfwDestroyWindow; glfwTerminate])) with 0%nat.
    lia.
  - exact (main_waiting e).
Qed.

(** When [main] returns 0 its last calls are the deletion of the vertex
    array and of the vertex buffer, the destruction of the window and
    [glfwTerminate()], and no other buffer is deleted: the element buffer
    never is.  In a run that returns, [glfwTerminate()] is called once
    when the window or GLEW failed or the loop was left, and not at all
    when [glfwInit()] failed or the shader program has the id 0. *)
Theorem main_cleanup (e : Environment) (code : Z) (log : list Call) :
  main e = Some (code, log) ->
  (code = 0%Z ->
   (exists before,
      log = before ++ [glDeleteVertexArrays (new_vertex_array_object_id e);
                       glDeleteBuffers (new_vertex_buffer_object_id e);
                       glfwDestroyWindow; glfwTerminate]) /\
   (forall id, In (glDeleteBuffers id) log ->
               id = new_vertex_buffer_object_id e)) /\
  count_terminate log
    = (if (glfwInit_ok e
           && (negb (window_created e) || negb (glewInit_ok e)
               || negb (shader_program_id e =? 0)%Z))%bool
       then 1%nat else 0%nat).
Proof.
  intros Hm. destruct (setup_succeeds e) eqn:Hs.
  - destruct (close_requested (ticks e)) eqn:Hc;
      [| rewrite (main_waiting e Hs Hc) in Hm; discriminate].
    rewrite (main_run e Hs Hc) in Hm. injection Hm as <- <-.
    destruct (setup_calls_plain e) as [_ [Hct Hnd]].
    unfold finished_calls. split.
    + intros _. split.
      * eexists. rewrite app_assoc. reflexivity.
      * intros id Hin. apply in_app_or in Hin. destruct Hin as [Hin | Hin];
          [exfalso; exact (Hnd id Hin) |].
        apply in_app_or in Hin. destruct Hin as [Hin | Hin].
        -- apply in_map_iff in Hin. destruct Hin as [c [Hc' _]]. discriminate.
        -- cbn [In] in Hin.
           destruct Hin as [Hin | [Hin | [Hin | [Hin | []]]]];
             try discriminate. injection Hin as <-. reflexivity.
    + rewrite !count_terminate_app, Hct, count_terminate_frames.
      revert Hs. unfold setup_succeeds.
      destruct (glfwInit_ok e), (window_created e), (glewInit_ok e),
        (shader_program_id e =? 0)%Z; try discriminate. reflexivity.
  - destruct (main_failed e Hs) as [log' [Hm' [_ Hct]]].
    rewrite Hm' in Hm. injection Hm as <- <-. split; [discriminate |].
    rewrite Hct. revert Hs. unfold setup_succeeds.
    destruct (glfwInit_ok e), (window_created e), (glewInit_ok e),
      (shader_program_id e =? 0)%Z; try discriminate; reflexivity.
Qed.

Lemma main_cleanup_witness :
  exists code log,
    main (mkEnvironment "v" "f" "t" true true true true "" 1 2 3 4 5
            [mkTick false 1; mkTick true 2])
      = Some (code, log) /\
    count_terminate log = 1%nat.
Proof.
  eexists. eexists. split.
  - exact (main_run (mkEnvironment "v" "f" "t" true true true true "" 1 2 3 4 5
                       [mkTick false 1; mkTick true 2]) eq_refl eq_refl).
  - exact (proj2 (main_cleanup _ _ _
             (main_run (mkEnvironment "v" "f" "t" true true true true ""
                          1 2 3 4 5 [mkTick false 1; mkTick true 2])
                       eq_refl eq_refl))).
Defined.

(** ** The quad in the view volume *)

Lemma setup_y_scale : 0 < ComputeCotangent (0.5 * 45) < 4.
Proof.
  unfold ComputeCotangent.
  pose proof PI_digits as [H1 H2]. pose proof kHalfPi_excess as [H3 H4].
  rewrite <- (tan_plus_7PI (kHalfPi - 0.5 * 45)).
  set (u := kHalfPi - 0.5 * 45 + 7 * PI).
  assert (Hu : 1.0619 < u < 1.062) by (unfold u; lra).
  assert (Hcos : 0.25 < cos u).
  { assert (Hb : cos_lb u <= cos u) by (apply COS; lra).
    rewrite cos_lb_value in Hb.
    replace (1 - u * u / 2 + u * u * u * u / 24
             - u * u * u * u * u * u / 720)
      with (1 - u * u / 2 + (u * u) * (u * u) * (30 - u * u) / 720)
      in Hb by field.
    assert (Hq : 0 < u * u < 1.128) by nra.
    set (q := u * u) in *.
    assert (0 <= q * q * (30 - q)) by (apply Rmult_le_pos; nra).
    lra. }
  pose proof (SIN_bound u) as [_ Hs].
  assert (Hpos : 0 < tan u) by (apply tan_gt_0; lra).
  split; [exact Hpos |].
  unfold tan. apply Rmult_lt_reg_r with (cos u); [lra |].
  unfold Rdiv. rewrite Rmult_assoc, Rinv_l by lra. lra.
Qed.

Lemma mulv4_identity (v : Vector4f) : mulv4 Identity4 v = v.
Proof. destruct v as [a b c d]. eigen_unfold. by_coefficients; ring. Qed.

Lemma ratio_in_unit (s X W : R) :
  0 < s < 4 -> -1 <= X <= 1 -> 4 <= W -> -1 <= s * X / W <= 1.
Proof.
  intros Hs HX HW.
  assert (Hb : - W <= s * X <= W) by nra.
  split.
  - apply Rmult_le_reg_r with W; [lra |].
    unfold Rdiv. rewrite Rmult_assoc, Rinv_l by lra. lra.
  - apply Rmult_le_reg_r with W; [lra |].
    unfold Rdiv. rewrite Rmult_assoc, Rinv_l by lra. lra.
Qed.

Lemma square_in_view (angle x y : R) :
  0 <= x <= 1 -> 0 <= y <= 1 ->
  exists ndc,
    divides_to
      (mulv4 projection_matrix
         (mulv4 (u_view (RenderScene_matrices projection_matrix angle))
            (mulv4 (u_model (RenderScene_matrices projection_matrix angle))
               (Vec4 x y 0 1)))) ndc /\
    -1 <= x3 ndc <= 1 /\ -1 <= y3 ndc <= 1 /\ -1 <= z3 ndc <= 1.
Proof.
  intros Hx Hy.
  pose proof (SIN_bound angle) as Hsin. pose proof (COS_bound angle) as Hcos.
  pose proof setup_y_scale as Hys.
  rewrite model_action.
  change (u_view (RenderScene_matrices projection_matrix angle))
    with Identity4.
  rewrite mulv4_identity.
  unfold projection_matrix. rewrite aspect_ratio_one. unfold field_of_view.
  rewrite fov_clip.
  set (ys := ComputeCotangent (0.5 * 45)) in *.
  set (Z := - x * sin angle + 0 * cos angle - 5).
  assert (HZ : -6 <= Z <= -4) by (unfold Z; nra).
  eexists. split; [split; [cbn [w4]; lra | reflexivity] |].
  cbn [x3 y3 z3 x4 y4 z4 w4].
  split; [| split].
  - replace (ys / 1 * (x * cos angle + 0 * sin angle) / - Z)
      with (ys * (x * cos angle) / - Z) by (field; lra).
    apply ratio_in_unit; [exact Hys | nra | lra].
  - apply ratio_in_unit; [exact Hys | lra | lra].
  - replace (- (0.1 + 10) / (10 - 0.1) * Z + -2 * 0.1 * 10 / (10 - 0.1))
      with (- (10 + 0.1) / (10 - 0.1) * Z + -2 * 10 * 0.1 / (10 - 0.1))
      by (field; lra).
    apply depth_range; lra.
Qed.

Lemma main_vertices_positions (column : list R) :
  In column main_vertices ->
  exists x y, vertex_position column = Vec3 x y 0 /\
              0 <= x <= 1 /\ 0 <= y <= 1.
Proof.
  unfold main_vertices. intros Hin. cbn [In] in Hin.
  destruct Hin as [<- | [<- | [<- | [<- | []]]]];
    unfold vertex_position; cbn [nth];
    eexists; eexists; (split; [reflexivity | split; lra]).
Qed.

(** At every angle each vertex of the quad, taken through the model, view
    and projection matrices of the frame in that order, has a positive
    clip [w] and lands after the divide inside the cube [[-1, 1]^3]: the
    quad is never cut by a face of the view volume. *)
Theorem quad_in_view (angle : R) (column : list R) :
  In column main_vertices ->
  exists ndc,
    divides_to
      (mulv4 projection_matrix
         (mulv4 (u_view (RenderScene_matrices projection_matrix angle))
            (mulv4 (u_model (RenderScene_matrices projection_matrix angle))
               (homogeneous (vertex_position column))))) ndc /\
    -1 <= x3 ndc <= 1 /\ -1 <= y3 ndc <= 1 /\ -1 <= z3 ndc <= 1.
Proof.
  intros Hin.
  destruct (main_vertices_positions column Hin) as [x [y [-> [Hx Hy]]]].
  exact (square_in_view angle x y Hx Hy).
Qed.

Lemma quad_in_view_witness :
  exists ndc,
    divides_to
      (mulv4 projection_matrix
         (mulv4 (u_view (RenderScene_matrices projection_matrix 1))
            (mulv4 (u_model (RenderScene_matrices projection_matrix 1))
               (homogeneous
                  (vertex_position [1; 1; 0; 0; 0; 1; 1; 0]))))) ndc /\
    -1 <= x3 ndc <= 1 /\ -1 <= y3 ndc <= 1 /\ -1 <= z3 ndc <= 1.
Proof.
  assert (H : In [1; 1; 0; 0; 0; 1; 1; 0] main_vertices).
  { unfold main_vertices. right. right. left. reflexivity. }
  exact (quad_in_view 1 [1; 1; 0; 0; 0; 1; 1; 0] H).
Defined.
